(** * my-connector: the keyword-driven e-mail analysers

    A shallow embedding of the text-analytics core of
    [email_project_analyzer.py] and [email_project_analyzer_2.py]:
    relevance classification, keyword tallies, the rule-based sentiment
    scorer with its optional ML collaborator, the risk score and the
    ranking of critical e-mails.

    Python values are modelled as follows.
    - [str] is a list of Unicode code points ([N]); slicing [s[:k]] is
      [firstn k s], [a in b] is [in_str a b], [b.count(a)] is [count a b].
    - [int] is [Z] (or [nat] for lengths and hit counters), [float] is the
      kernel's binary64 [float].
    - an e-mail [dict] is a record whose fields are optional: [None]
      stands for a missing key, whose lookup raises [KeyError].
    - [try/except] is an error monad ([result]); state mutated in place
      is threaded explicitly.
    - library calls whose results the properties do not depend on are
      parameters of the development: [str.lower] ([lower]), the
      [re.findall] of the address pattern ([findall_email]) and the rounded
      mean of the confidences ([mean_round2]). Every theorem holds for any
      choice of them; [lower_latin1] is used to run the analysers on
      sample inputs.
    - the mail session of [search_project_emails] is left out: the loop
      is modelled from the list of extracted e-mail dicts on. *)

From Stdlib Require Import ZArith List Lia Bool.
From Stdlib Require Import Strings.String Strings.Ascii.
From Stdlib Require Import Floats.PrimFloat Numbers.Cyclic.Int63.Uint63.
From Stdlib Require Import Sorting.Permutation Sorting.Sorted.
From stdpp Require Import gmap.
Import ListNotations.

Set Warnings "-inexact-float".

(** ** Python strings *)

Abbreviation str := (list N).

(** UTF-8 decoding, used only to write the lexicons of the source as
    literals: [need] continuation bytes are still expected and [acc] holds
    the bits read so far. *)
Fixpoint decode_utf8 (need : nat) (acc : N) (bs : list N) : str :=
  match bs with
  | [] => []
  | b :: bs' =>
      match need with
      | O =>
          if (b <? 128)%N then b :: decode_utf8 0 0 bs'
          else if (b <? 224)%N then decode_utf8 1 (b - 192) bs'
          else if (b <? 240)%N then decode_utf8 2 (b - 224) bs'
          else decode_utf8 3 (b - 240) bs'
      | S O => (acc * 64 + (b - 128))%N :: decode_utf8 0 0 bs'
      | S n => decode_utf8 n (acc * 64 + (b - 128))%N bs'
      end
  end.

Definition u (s : string) : str :=
  decode_utf8 0 0 (List.map N_of_ascii (list_ascii_of_string s)).

(** [p] is a prefix of [s] ([s.startswith(p)]). *)
Fixpoint starts_with (p s : str) : bool :=
  match p, s with
  | [], _ => true
  | _ :: _, [] => false
  | a :: p', b :: s' => (a =? b)%N && starts_with p' s'
  end.

(** [sub in s]: raw substring containment. *)
Fixpoint in_str (sub s : str) : bool :=
  starts_with sub s ||
  match s with
  | [] => false
  | _ :: s' => in_str sub s'
  end.

(** [s.count(sub)] for a non-empty [sub]: occurrences are counted from the
    left and do not overlap; [skip] is the number of characters still
    covered by the occurrence just counted. *)
Fixpoint count_from (sub : str) (skip : nat) (s : str) : Z :=
  match s with
  | [] => 0
  | _ :: s' =>
      match skip with
      | S k => count_from sub k s'
      | O =>
          if starts_with sub s
          then 1 + count_from sub (length sub - 1) s'
          else count_from sub 0 s'
      end
  end.

Definition count (sub s : str) : Z :=
  match sub with
  | [] => Z.of_nat (length s) + 1
  | _ => count_from sub 0 s
  end.

(** [str.isspace] on one character. *)
Definition isspace (c : N) : bool :=
  ((9 <=? c) && (c <=? 13) || (28 <=? c) && (c <=? 32) ||
   (c =? 133) || (c =? 160) || (c =? 5760) ||
   (8192 <=? c) && (c <=? 8202) || (c =? 8232) || (c =? 8233) ||
   (c =? 8239) || (c =? 8287) || (c =? 12288))%N.

Fixpoint lstrip (s : str) : str :=
  match s with
  | [] => []
  | c :: s' => if isspace c then lstrip s' else s
  end.

Definition rstrip (s : str) : str := rev (lstrip (rev s)).

(** [s.strip()] *)
Definition strip (s : str) : str := rstrip (lstrip s).

(** [s[-k:]] for [k > 0] *)
Definition last_n {A} (k : nat) (l : list A) : list A :=
  skipn (length l - k) l.

(** A lower-casing of ASCII and Latin-1 letters, on which it agrees with
    [str.lower]; used to evaluate the analysers on sample inputs. *)
Definition lower_char (c : N) : N :=
  if ((65 <=? c) && (c <=? 90))%N then (c + 32)%N
  else if ((192 <=? c) && (c <=? 222) && negb (c =? 215))%N then (c + 32)%N
  else c.

Definition lower_latin1 (s : str) : str := List.map lower_char s.

(** ** Exceptions *)

Inductive exn :=
| KeyError (key : str)     (* a dict lookup on a missing key *)
| ModelError.              (* anything the ML collaborator raises *)

Inductive result (A : Type) :=
| Ok (a : A)
| Raise (e : exn).
Arguments Ok {A} a.
Arguments Raise {A} e.

Definition bind {A B} (m : result A) (k : A -> result B) : result B :=
  match m with
  | Ok a => k a
  | Raise e => Raise e
  end.

Notation "'do' x <- m ; k" := (bind m (fun x => k))
  (at level 10, x name, m at level 100, k at level 200).

(** [d[key]] where [v] is the entry of [d] under [key], if any. *)
Definition getitem {A} (key : string) (v : option A) : result A :=
  match v with
  | Some x => Ok x
  | None => Raise (KeyError (u key))
  end.

(** ** Data model *)

(** The e-mail dict handed around by both analysers. [date] is the raw
    [msg['Date']], which is [None] when the header is absent. *)
Record email_data := {
  subject : option str;
  from : option str;
  to : option str;
  date : option (option str);
  body : option str
}.

(** The dict built by [extract_email_content]: all five keys are set. *)
Record EmailRecord := {
  r_subject : str;
  r_from : str;
  r_to : str;
  r_date : option str;
  r_body : str
}.

Definition content (r : EmailRecord) : email_data :=
  {| subject := Some (r_subject r);
     from := Some (r_from r);
     to := Some (r_to r);
     date := Some (r_date r);
     body := Some (r_body r) |}.

(** ** Lexicons ([setup_basic_analyzers], [extract_keywords],
       [identify_critical_emails]) *)

Definition risk_keywords : list (str * Z) :=
  [ (u "urgent", 3); (u "critique", 3); (u "problème", 2); (u "retard", 2);
    (u "échéance", 2); (u "budget", 1); (u "dépassement", 3); (u "erreur", 2);
    (u "bug", 2); (u "bloqué", 3); (u "annulé", 3); (u "report", 2);
    (u "danger", 3); (u "alerte", 2); (u "attention", 1) ]%Z.

Definition positive_keywords : list str :=
  [ u "réussi"; u "succès"; u "bien"; u "parfait"; u "excellent"; u "terminé";
    u "livré"; u "validé"; u "approuvé"; u "satisfait"; u "content" ].

Definition negative_keywords : list str :=
  [ u "problème"; u "erreur"; u "échec"; u "retard"; u "bloqué"; u "difficile";
    u "impossible"; u "mauvais"; u "inquiet"; u "préoccupé"; u "urgent" ].

Definition urgent_words : list str :=
  [ u "urgent"; u "asap"; u "immédiat"; u "critique"; u "emergency" ].

Definition project_keywords : list str :=
  [ u "deadline"; u "échéance"; u "livraison"; u "milestone"; u "étape";
    u "budget"; u "coût"; u "prix"; u "devis"; u "facture";
    u "réunion"; u "meeting"; u "call"; u "appel"; u "rdv";
    u "urgent"; u "priorité"; u "important"; u "critique";
    u "terminé"; u "fini"; u "complété"; u "livré"; u "deployed";
    u "projet"; u "project"; u "développement"; u "development";
    u "test"; u "bug"; u "issue"; u "problème"; u "solution" ].

(** Results of the sentiment scorers: [{'label': ..., 'score': ...}]. *)
Record scored := { label : str; score : float }.

(** [self] of [EmailIntelligentAnalyzer], as far as sentiment goes: the
    availability flag and the pipeline object, [None] when it could not be
    loaded. Calling the pipeline either yields its first result or raises. *)
Record analyzer := {
  sentiment_available : bool;
  sentiment_analyzer : option (str -> result scored)
}.

Inductive method_tag := ML | Basic.

(** One entry of [sentiments] in [analyze_sentiment]. *)
Record sentiment_result := {
  s_subject : str;
  sentiment : str;
  confidence : float;
  s_date : option str;
  method : method_tag
}.

Inductive trend := Positive | Negative | Neutre.
Inductive summary_method := SummaryML | MotsCles.

(** The keys [analyze_sentiment] adds when at least one e-mail was scored. *)
Record sentiment_stats := {
  sentiment_positif : Z;
  sentiment_negatif : Z;
  sentiment_neutre : Z;
  confiance_moyenne : float;
  details : list sentiment_result;
  tendance : trend;
  methode : summary_method
}.

(** The summary dict: [{"emails_analysés": 0}] carries no other key. *)
Record sentiment_data := {
  emails_analyses : Z;
  stats : option sentiment_stats
}.

(** [sentiment_data.get('tendance')] *)
Definition get_tendance (sd : sentiment_data) : option trend :=
  match stats sd with
  | Some st => Some (tendance st)
  | None => None
  end.

Inductive risk_level := CRITIQUE | MODERE | FAIBLE | INDETERMINE.

(** The entries of [risk_factors]; [RiskKeywords n] stands for the text
    "n mots-clés de risque détectés". *)
Inductive risk_factor :=
| SentimentNegatif       (* "Sentiment négatif dominant" *)
| RiskKeywords (n : Z)
| VolumeEleve            (* "Volume d'emails élevé" *)
| ActiviteFaible.        (* "Activité très faible" *)

(** The dict returned by [calculate_risk_score]; the last two keys are
    missing from the one built in the [except] branch. *)
Record risk_assessment := {
  score_risque : Z;
  niveau_risque : risk_level;
  facteurs_risque : option (list risk_factor);
  recommandation : option str
}.

(** One entry of [critical_emails]. *)
Record critical_email := {
  c_subject : str;
  c_from : str;
  c_date : option str;
  criticality_score : Z;
  flags : list str;
  preview : str
}.

(** A project bucket of [search_project_emails]. *)
Record bucket := {
  emails : list email_data;
  participants : gset str;
  keywords : gmap str Z;
  dates : list (option str)
}.

(** The value [defaultdict] creates on first access. *)
Definition new_bucket : bucket :=
  {| emails := []; participants := ∅; keywords := ∅; dates := [] |}.

(** [int * float] for a hit counter (exact below 2^53). *)
Definition float_of_nat (n : nat) : float :=
  PrimFloat.of_uint63 (Uint63.of_Z (Z.of_nat n)).

(** [sum(1 for word in words if word in text)] *)
Definition hits (words : list str) (text : str) : nat :=
  length (List.filter (fun word => in_str word text) words).

(** Stable sort, descending on [key]: the result of
    [l.sort(key=..., reverse=True)]. *)
Fixpoint insert_desc {A} (key : A -> Z) (x : A) (l : list A) : list A :=
  match l with
  | [] => [x]
  | y :: l' =>
      if (key y <=? key x)%Z then x :: l
      else y :: insert_desc key x l'
  end.

Fixpoint sort_desc {A} (key : A -> Z) (l : list A) : list A :=
  match l with
  | [] => []
  | x :: l' => insert_desc key x (sort_desc key l')
  end.

(** ** The analysers *)

Section Analysers.

(** [str.lower] *)
Variable lower : str -> str.
(** [re.findall(email_pattern, s)] *)
Variable findall_email : str -> list str.
(** [round(sum(confidences) / len(confidences), 2)] *)
Variable mean_round2 : list float -> float.

Open Scope Z_scope.

(** [f"{email_data['subject']} {email_data['body']}"] *)
Definition subject_body (email_data : email_data) : result str :=
  do s <- getitem "subject" (subject email_data);
  do b <- getitem "body" (body email_data);
  Ok (s ++ u " " ++ b).

(** The same, lower-cased. *)
Definition search_text (email_data : email_data) : result str :=
  do t <- subject_body email_data;
  Ok (lower t).

(** *** [check_project_relevance] (the same code in both files) *)

Definition check_project_relevance
    (email_content : email_data) (project_filters : list str) : result (list str) :=
  do text <- search_text email_content;
  Ok (List.filter (fun project_filter => in_str (lower project_filter) text)
        project_filters).

(** *** [extract_participants], [extract_keywords] and the loop of
        [search_project_emails] ([email_project_analyzer.py]) *)

(** The set is updated in place, so what was added before a [KeyError]
    stays. *)
Definition extract_participants (email_content : email_data)
    (participants : gset str) : gset str * result unit :=
  match from email_content with
  | None => (participants, Raise (KeyError (u "from")))
  | Some f =>
      let participants :=
        match f with
        | [] => participants
        | _ => participants ∪ list_to_set (findall_email f)
        end in
      match to email_content with
      | None => (participants, Raise (KeyError (u "to")))
      | Some t =>
          (match t with
           | [] => participants
           | _ => participants ∪ list_to_set (findall_email t)
           end, Ok tt)
      end
  end.

(** The loop of [extract_keywords] over [project_keywords], on the text. *)
Definition tally (text : str) (keywords : gmap str Z) : gmap str Z :=
  fold_left
    (fun keywords keyword =>
       if in_str keyword text
       then <[keyword := default 0 (keywords !! keyword) + count keyword text]> keywords
       else keywords)
    project_keywords keywords.

Definition extract_keywords (email_content : email_data)
    (keywords : gmap str Z) : result (gmap str Z) :=
  do text <- search_text email_content;
  Ok (tally text keywords).

(** The body of [for project in matching_projects], statement by
    statement; the bucket reached through [project_data[project]] is
    mutated in place, so each statement's effect survives a later
    exception. *)
Definition record_in_project (email_content : email_data) (project : str)
    (project_data : gmap str bucket) : gmap str bucket * result unit :=
  let b := default new_bucket (project_data !! project) in
  let b := {| emails := emails b ++ [email_content];
              participants := participants b;
              keywords := keywords b; dates := dates b |} in
  match date email_content with
  | None => (<[project := b]> project_data, Raise (KeyError (u "date")))
  | Some d =>
      let b := {| emails := emails b; participants := participants b;
                  keywords := keywords b; dates := dates b ++ [d] |} in
      let '(ps, r) := extract_participants email_content (participants b) in
      let b := {| emails := emails b; participants := ps;
                  keywords := keywords b; dates := dates b |} in
      match r with
      | Raise e => (<[project := b]> project_data, Raise e)
      | Ok _ =>
          match extract_keywords email_content (keywords b) with
          | Raise e => (<[project := b]> project_data, Raise e)
          | Ok ks =>
              (<[project := {| emails := emails b; participants := participants b;
                               keywords := ks; dates := dates b |}]> project_data,
               Ok tt)
          end
      end
  end.

Fixpoint record_in_projects (email_content : email_data) (projects : list str)
    (project_data : gmap str bucket) : gmap str bucket * result unit :=
  match projects with
  | [] => (project_data, Ok tt)
  | project :: rest =>
      let '(project_data, r) := record_in_project email_content project project_data in
      match r with
      | Ok _ => record_in_projects email_content rest project_data
      | Raise e => (project_data, Raise e)
      end
  end.

(** One turn of the loop over the fetched e-mails: any exception is
    swallowed ([except Exception: continue]). *)
Definition process_email (project_filters : list str)
    (project_data : gmap str bucket) (email_content : email_data) : gmap str bucket :=
  match check_project_relevance email_content project_filters with
  | Raise _ => project_data
  | Ok [] => project_data
  | Ok matching_projects =>
      fst (record_in_projects email_content matching_projects project_data)
  end.

(** [search_project_emails] from the extracted contents on. *)
Definition search_project_emails (project_filters : list str)
    (fetched : list email_data) : gmap str bucket :=
  fold_left (process_email project_filters) fetched ∅.

(** *** [analyze_sentiment_basic] *)

Definition analyze_sentiment_basic (text : str) : scored :=
  let text_lower := lower text in
  let positive_count := hits positive_keywords text_lower in
  let negative_count := hits negative_keywords text_lower in
  if (negative_count <? positive_count)%nat then
    {| label := u "POSITIVE";
       score := (0.6 + float_of_nat positive_count * 0.1)%float |}
  else if (positive_count <? negative_count)%nat then
    {| label := u "NEGATIVE";
       score := (0.6 + float_of_nat negative_count * 0.1)%float |}
  else
    {| label := u "NEUTRAL"; score := 0.5%float |}.

(** *** [analyze_sentiment] *)

(** The inner [try] block: call the model, then build the entry. *)
Definition ml_entry (model : str -> result scored) (text : str)
    (email_data : email_data) : result sentiment_result :=
  do result <- model text;
  do s <- getitem "subject" (subject email_data);
  do d <- getitem "date" (date email_data);
  Ok {| s_subject := s; sentiment := label result; confidence := score result;
        s_date := d; method := ML |}.

(** The two places that use the basic scorer. *)
Definition basic_entry (text : str) (email_data : email_data) : result sentiment_result :=
  let basic_result := analyze_sentiment_basic text in
  do s <- getitem "subject" (subject email_data);
  do d <- getitem "date" (date email_data);
  Ok {| s_subject := s; sentiment := label basic_result;
        confidence := score basic_result; s_date := d; method := Basic |}.

(** The body of the outer [try] for one e-mail: [Ok None] is the
    [continue] on an empty text. *)
Definition sentiment_entry (self : analyzer) (email_data : email_data)
    : result (option sentiment_result) :=
  do t <- subject_body email_data;
  let text := firstn 512 t in
  match strip text with
  | [] => Ok None
  | _ =>
      match sentiment_available self, sentiment_analyzer self with
      | true, Some model =>
          match ml_entry model text email_data with
          | Ok r => Ok (Some r)
          | Raise _ => do r <- basic_entry text email_data; Ok (Some r)
          end
      | _, _ => do r <- basic_entry text email_data; Ok (Some r)
      end
  end.

(** The list [sentiments] after the loop; an exception skips the e-mail. *)
Fixpoint collect_sentiments (self : analyzer) (emails : list email_data)
    : list sentiment_result :=
  match emails with
  | [] => []
  | email_data :: rest =>
      match sentiment_entry self email_data with
      | Ok (Some r) => r :: collect_sentiments self rest
      | Ok None | Raise _ => collect_sentiments self rest
      end
  end.

(** [sum(1 for s in sentiments if tag in s['sentiment'])] *)
Definition count_label (tag : str) (sentiments : list sentiment_result) : Z :=
  Z.of_nat (length (List.filter (fun s => in_str tag (sentiment s)) sentiments)).

Definition analyze_sentiment (self : analyzer) (emails : list email_data)
    : sentiment_data :=
  let sentiments := collect_sentiments self emails in
  match sentiments with
  | [] => {| emails_analyses := 0; stats := None |}
  | _ =>
      let positive_count := count_label (u "POSITIVE") sentiments in
      let negative_count := count_label (u "NEGATIVE") sentiments in
      let neutral_count :=
        Z.of_nat (length sentiments) - positive_count - negative_count in
      {| emails_analyses := Z.of_nat (length sentiments);
         stats := Some
           {| sentiment_positif := positive_count;
              sentiment_negatif := negative_count;
              sentiment_neutre := neutral_count;
              confiance_moyenne := mean_round2 (List.map confidence sentiments);
              details := last_n 3 sentiments;
              tendance :=
                if positive_count >? negative_count then Positive
                else if negative_count >? positive_count then Negative
                else Neutre;
              methode := if sentiment_available self then SummaryML else MotsCles |} |}
  end.

(** *** [get_recommendation] and [calculate_risk_score] *)

Definition get_recommendation (risk_level : risk_level) : str :=
  match risk_level with
  | CRITIQUE => u "⚠️ ATTENTION IMMÉDIATE - Réviser le projet, contacter l'équipe"
  | MODERE => u "⚡ Surveillance recommandée - Planifier un point d'équipe"
  | FAIBLE => u "✅ Projet sur la bonne voie - Suivi normal"
  | INDETERMINE => u "Suivi standard recommandé"
  end.

(** The inner loop over [risk_keywords.items()] for one text; the state is
    [(risk_score, risk_keyword_count)]. *)
Definition risk_keyword_step (text : str) (st : Z * Z) (kw : str * Z) : Z * Z :=
  let '(risk_score, risk_keyword_count) := st in
  let '(keyword, weight) := kw in
  if in_str keyword text
  then (risk_score + weight * 3, risk_keyword_count + 1)
  else st.

Fixpoint risk_keyword_loop (emails : list email_data) (st : Z * Z) : result (Z * Z) :=
  match emails with
  | [] => Ok st
  | email_data :: rest =>
      do text <- search_text email_data;
      risk_keyword_loop rest (fold_left (risk_keyword_step text) risk_keywords st)
  end.

(** The [try] block. *)
Definition risk_body (emails : list email_data) (sentiment_data : sentiment_data)
    : result risk_assessment :=
  let risk_score := 0 in
  let risk_factors := [] in
  let '(risk_score, risk_factors) :=
    match get_tendance sentiment_data with
    | Some Negative => (risk_score + 30, risk_factors ++ [SentimentNegatif])
    | _ => (risk_score, risk_factors)
    end in
  do st <- risk_keyword_loop emails (risk_score, 0);
  let '(risk_score, risk_keyword_count) := st in
  let risk_factors :=
    if risk_keyword_count >? 0
    then risk_factors ++ [RiskKeywords risk_keyword_count]
    else risk_factors in
  let email_count := Z.of_nat (length emails) in
  let '(risk_score, risk_factors) :=
    if email_count >? 50 then (risk_score + 10, risk_factors ++ [VolumeEleve])
    else if email_count <? 3 then (risk_score + 15, risk_factors ++ [ActiviteFaible])
    else (risk_score, risk_factors) in
  let risk_level :=
    if risk_score >=? 60 then CRITIQUE
    else if risk_score >=? 30 then MODERE
    else FAIBLE in
  Ok {| score_risque := Z.min risk_score 100;
        niveau_risque := risk_level;
        facteurs_risque := Some risk_factors;
        recommandation := Some (get_recommendation risk_level) |}.

(** The third argument of the source, [entities], is never read. *)
Definition calculate_risk_score (emails : list email_data)
    (sentiment_data : sentiment_data) : risk_assessment :=
  match risk_body emails sentiment_data with
  | Ok r => r
  | Raise _ =>
      {| score_risque := 0; niveau_risque := INDETERMINE;
         facteurs_risque := None; recommandation := None |}
  end.

(** *** [identify_critical_emails] *)

Definition risk_flag_step (text : str) (st : Z * list str) (kw : str * Z)
    : Z * list str :=
  let '(criticality_score, flags) := st in
  let '(keyword, weight) := kw in
  if in_str keyword text
  then (criticality_score + weight, flags ++ [keyword])
  else st.

Definition urgent_step (text : str) (st : Z * list str) (word : str)
    : Z * list str :=
  let '(criticality_score, flags) := st in
  if in_str word text
  then (criticality_score + 5, flags ++ [u "urgent_" ++ word])
  else st.

(** [(criticality_score, flags)] after the two keyword loops. *)
Definition criticality (text : str) : Z * list str :=
  fold_left (urgent_step text) urgent_words
    (fold_left (risk_flag_step text) risk_keywords (0, [])).

(** The body of the [try] for one e-mail: [Ok None] when the score is
    below the threshold. *)
Definition critical_entry (email_data : email_data) : result (option critical_email) :=
  do text <- search_text email_data;
  let '(criticality_score, flags) := criticality text in
  if criticality_score >=? 4 then
    do s <- getitem "subject" (subject email_data);
    do f <- getitem "from" (from email_data);
    do d <- getitem "date" (date email_data);
    do b <- getitem "body" (body email_data);
    Ok (Some {| c_subject := s; c_from := f; c_date := d;
                criticality_score := criticality_score; flags := flags;
                preview := if (150 <? length b)%nat
                           then firstn 150 b ++ u "..." else b |})
  else Ok None.

(** The list [critical_emails] before it is sorted. *)
Fixpoint collect_critical (emails : list email_data) : list critical_email :=
  match emails with
  | [] => []
  | email_data :: rest =>
      match critical_entry email_data with
      | Ok (Some c) => c :: collect_critical rest
      | Ok None | Raise _ => collect_critical rest
      end
  end.

Definition identify_critical_emails (emails : list email_data) : list critical_email :=
  firstn 5 (sort_desc criticality_score (collect_critical emails)).

(** *** The loop of [search_project_emails] in
        [email_project_analyzer_2.py]: no keyword tally, no guard on the
        match list *)

Definition record_in_project_2 (email_content : email_data) (project : str)
    (project_data : gmap str bucket) : gmap str bucket * result unit :=
  let b := default new_bucket (project_data !! project) in
  let b := {| emails := emails b ++ [email_content];
              participants := participants b;
              keywords := keywords b; dates := dates b |} in
  match date email_content with
  | None => (<[project := b]> project_data, Raise (KeyError (u "date")))
  | Some d =>
      let b := {| emails := emails b; participants := participants b;
                  keywords := keywords b; dates := dates b ++ [d] |} in
      let '(ps, r) := extract_participants email_content (participants b) in
      (<[project := {| emails := emails b; participants := ps;
                       keywords := keywords b; dates := dates b |}]> project_data, r)
  end.

Fixpoint record_in_projects_2 (email_content : email_data) (projects : list str)
    (project_data : gmap str bucket) : gmap str bucket * result unit :=
  match projects with
  | [] => (project_data, Ok tt)
  | project :: rest =>
      let '(project_data, r) := record_in_project_2 email_content project project_data in
      match r with
      | Ok _ => record_in_projects_2 email_content rest project_data
      | Raise e => (project_data, Raise e)
      end
  end.

Definition process_email_2 (project_filters : list str)
    (project_data : gmap str bucket) (email_content : email_data) : gmap str bucket :=
  match check_project_relevance email_content project_filters with
  | Raise _ => project_data
  | Ok matching_projects =>
      fst (record_in_projects_2 email_content matching_projects project_data)
  end.

Definition search_project_emails_2 (project_filters : list str)
    (fetched : list email_data) : gmap str bucket :=
  fold_left (process_email_2 project_filters) fetched ∅.

(** *** [generate_basic_summary] and [generate_auto_summary] *)

(** [s.split(sep)] for a one-character separator. *)
Fixpoint split_on (sep : N) (s : str) : list str :=
  match s with
  | [] => [[]]
  | c :: s' =>
      if (c =? sep)%N then [] :: split_on sep s'
      else match split_on sep s' with
           | [] => [[c]]
           | piece :: pieces => (c :: piece) :: pieces
           end
  end.

(** [sep.join(l)] *)
Fixpoint join (sep : str) (l : list str) : str :=
  match l with
  | [] => []
  | x :: rest =>
      match rest with
      | [] => x
      | _ => x ++ sep ++ join sep rest
      end
  end.

(** The dicts [generate_auto_summary] can return. *)
Inductive auto_summary :=
| NoEmails                      (* {"error": "Pas d'emails à résumer"} *)
| SummaryFailed (e : exn)       (* {"error": f"Erreur résumé: {str(e)}"} *)
| Insufficient                  (* {"résumé": "Contenu insuffisant ..."} *)
| MLSummary (resume : str) (emails_analyses : nat) (taux_compression : float)
| BasicSummary (resume : str) (emails_analyses : nat).
                                (* "méthode": "ML" / "Extraction basique" *)

(** [self] as far as summaries go; [round_ratio a b] is
    [round(a / b, 2)]. *)
Record summarizer_state := {
  summarizer_available : bool;
  summarizer : option (str -> result str);
  round_ratio : nat -> nat -> float
}.

(** The inner loop over the first two sentences of a body. *)
Definition sentence_step (key_sentences : list str) (sentence : str) : list str :=
  if (20 <? length (strip sentence))%nat
  then key_sentences ++ [strip sentence]
  else key_sentences.

(** The loop over [recent_emails]. *)
Fixpoint key_sentences_loop (recent_emails : list email_data)
    (key_sentences : list str) : result (list str) :=
  match recent_emails with
  | [] => Ok key_sentences
  | email_data :: rest =>
      do subject <- getitem "subject" (subject email_data);
      do body <- getitem "body" (body email_data);
      let key_sentences :=
        match subject with
        | [] => key_sentences
        | _ => key_sentences ++ [u "Sujet: " ++ subject]
        end in
      let key_sentences :=
        match body with
        | [] => key_sentences
        | _ => fold_left sentence_step (firstn 2 (split_on 46 body)) key_sentences
        end in
      key_sentences_loop rest key_sentences
  end.

Definition generate_basic_summary (emails : list email_data) : result auto_summary :=
  let recent_emails := last_n 3 emails in
  do key_sentences <- key_sentences_loop recent_emails [];
  let summary := join (u ". ") (firstn 5 key_sentences) in
  Ok (BasicSummary
        (if (300 <? length summary)%nat then firstn 300 summary ++ u "..." else summary)
        (length recent_emails)).

(** [combined_text] after the loop of the ML branch. *)
Fixpoint combine_texts (recent_emails : list email_data) (combined_text : str)
    : result str :=
  match recent_emails with
  | [] => Ok combined_text
  | email_data :: rest =>
      do s <- getitem "subject" (subject email_data);
      do b <- getitem "body" (body email_data);
      combine_texts rest (combined_text ++ (s ++ u ". " ++ b) ++ u " ")
  end.

(** The inner [try] block of the ML branch. *)
Definition ml_summary (self : summarizer_state) (model : str -> result str)
    (emails : list email_data) : result auto_summary :=
  let recent_emails := last_n 3 emails in
  do combined_text <- combine_texts recent_emails [];
  let combined_text := firstn 800 combined_text in
  if (length (strip combined_text) <? 50)%nat then Ok Insufficient
  else
    do summary_text <- model combined_text;
    Ok (MLSummary summary_text (length recent_emails)
          (round_ratio self (length summary_text) (length combined_text))).

Definition generate_auto_summary (self : summarizer_state)
    (emails : list email_data) : auto_summary :=
  match emails with
  | [] => NoEmails
  | _ =>
      let basic :=
        match generate_basic_summary emails with
        | Ok r => r
        | Raise e => SummaryFailed e
        end in
      match summarizer_available self, summarizer self with
      | true, Some model =>
          match ml_summary self model emails with
          | Ok r => r
          | Raise _ => basic
          end
      | _, _ => basic
      end
  end.

(** *** [extract_entities_basic] *)

Definition tech_keywords : list str :=
  [ u "react"; u "angular"; u "vue"; u "python"; u "java"; u "javascript";
    u "nodejs"; u "api"; u "rest"; u "graphql"; u "mongodb"; u "mysql";
    u "postgresql"; u "aws"; u "azure"; u "docker"; u "kubernetes";
    u "jenkins"; u "git" ].

(** [str.upper] on the ASCII letters, which is all [tech_keywords] has. *)
Definition upper_char (c : N) : N :=
  if ((97 <=? c) && (c <=? 122))%N then (c - 32)%N else c.

Definition upper_ascii (s : str) : str := List.map upper_char s.

(** The three [re.findall] calls of [extract_entities_basic]. *)
Record entity_patterns := {
  find_emails : str -> list str;
  find_montants : str -> list str;
  find_urls : str -> list str
}.

Record entities := {
  e_emails : gset str;
  e_montants : gset str;
  e_dates : gset str;
  e_technologies : gset str;
  e_urls : gset str
}.

Definition extract_entities_basic (re : entity_patterns) (text : str) : entities :=
  let text_lower := lower text in
  {| e_emails := list_to_set (find_emails re text);
     e_montants := list_to_set (find_montants re text);
     e_dates := ∅;
     e_technologies :=
       fold_left
         (fun technologies tech =>
            if in_str tech text_lower
            then technologies ∪ {[ upper_ascii tech ]}
            else technologies)
         tech_keywords ∅;
     e_urls := list_to_set (find_urls re text) |}.

(** *** The body of the loop of [generate_summary]
        ([email_project_analyzer.py]) *)

(** [email.utils.parsedate_to_datetime] followed by the conversion to a
    naive local time, as a point on a time line, and
    [strftime('%d/%m/%Y')]; [keyword_items] is [keywords.items()], the
    entries of the dict in its iteration order. *)
Record summary_lib := {
  parse_local : str -> result Z;
  format_date : Z -> str;
  keyword_items : gmap str Z -> list (str * Z)
}.

(** [s.split(sep)[0]] for a non-empty [sep]. *)
Fixpoint before (sep s : str) : str :=
  if starts_with sep s then []
  else match s with
       | [] => []
       | c :: s' => c :: before sep s'
       end.

(** The loop that fills [parsed_dates]. *)
Definition parse_step (lib : summary_lib) (parsed_dates : list Z) (d : option str)
    : list Z :=
  match d with
  | None | Some [] => parsed_dates
  | Some d =>
      let d := if in_str (u "(") d then before (u " (") d else d in
      match parse_local lib d with
      | Ok dt => parsed_dates ++ [dt]
      | Raise _ => parsed_dates
      end
  end.

Definition date_range (lib : summary_lib) (dates : list (option str)) : str :=
  match fold_left (parse_step lib) dates [] with
  | [] => []
  | dt :: rest =>
      let min_date := format_date lib (fold_left Z.min rest dt) in
      let max_date := format_date lib (fold_left Z.max rest dt) in
      if bool_decide (min_date = max_date) then min_date
      else min_date ++ u " - " ++ max_date
  end.

(** [[e['subject'] for e in recent if e['subject']]] *)
Fixpoint recent_subjects (recent : list email_data) : result (list str) :=
  match recent with
  | [] => Ok []
  | e :: rest =>
      do s <- getitem "subject" (subject e);
      match s with
      | [] => recent_subjects rest
      | _ =>
          do s <- getitem "subject" (subject e);
          do l <- recent_subjects rest;
          Ok (s :: l)
      end
  end.

(** One entry of [summary]; [participants] is a list in the set's own
    order, kept here as the set. *)
Record project_summary := {
  nb_emails : Z;
  nb_participants : Z;
  p_participants : gset str;
  periode : str;
  mots_cles_principaux : list (str * Z);
  sujets_recents : list str;
  activite_recente : bool;
  score_activite : Z
}.

Definition summary_entry (lib : summary_lib) (data : bucket) : result project_summary :=
  let top_keywords := firstn 10 (sort_desc snd (keyword_items lib (keywords data))) in
  let email_count := Z.of_nat (length (emails data)) in
  let participant_count := Z.of_nat (size (participants data)) in
  let date_range := date_range lib (dates data) in
  do recent_subjects <- recent_subjects (last_n 3 (emails data));
  Ok {| nb_emails := email_count;
        nb_participants := participant_count;
        p_participants := participants data;
        periode := date_range;
        mots_cles_principaux := top_keywords;
        sujets_recents := recent_subjects;
        activite_recente := email_count >? 0;
        score_activite := email_count + Z.of_nat (length top_keywords) |}.

(** *** [main]: the command line, as far as [--projects] goes *)

(** How [parser.parse_args()] ends. *)
Inductive parsed (A : Type) :=
| UsageError        (* [parser.error]: usage message, then [sys.exit(2)] *)
| Args (a : A).
#[global] Arguments UsageError {A}.
#[global] Arguments Args {A} a.

(** [--projects] is declared with [required=True] and [nargs='+'] in both
    files. [given] is [None] when the option is not on the command line,
    and otherwise the values that follow it: argparse refuses a missing
    option ("the following arguments are required") and an option without
    a value ("expected at least one argument"), and hands the values over
    as they are. *)
Definition parse_projects (given : option (list str)) : parsed (list str) :=
  match given with
  | None => UsageError
  | Some [] => UsageError
  | Some projects => Args projects
  end.

(** [main] of [email_project_analyzer_2.py] from the command line to
    [project_data], the other options being given and the connection made:
    [args.projects] goes to [search_project_emails] as it is. [fetched] is
    what the mailbox returns. *)
Definition main (given : option (list str)) (fetched : list email_data)
    : parsed (gmap str bucket) :=
  match parse_projects given with
  | UsageError => UsageError
  | Args projects => Args (search_project_emails_2 projects fetched)
  end.

(** ** Notions used in the statements *)

(** [sub] occurs in [s] as a contiguous run of characters. *)
Definition substring (sub s : str) : Prop := exists a b, s = a ++ sub ++ b.

Definition zsum (l : list Z) : Z := fold_right Z.add 0 l.

(** Descending order on [key]. *)
Definition desc {A} (key : A -> Z) (a b : A) : Prop := key b <= key a.

(** The text the analysers search for an [EmailRecord]: the lower-cased
    [subject + " " + body]. *)
Definition record_text (r : EmailRecord) : str :=
  lower (r_subject r ++ u " " ++ r_body r).

(** The text scored for sentiment: [subject + " " + body] cut at 512
    characters. *)
Definition text512 (r : EmailRecord) : str :=
  firstn 512 (r_subject r ++ u " " ++ r_body r).

Definition blank (s : str) : bool := forallb isspace s.

(** Risk score, as the specification words it. *)
Definition term_points (text : str) (kw : str * Z) : Z :=
  if in_str (fst kw) text then snd kw * 3 else 0.

Definition raw_score (records : list EmailRecord) (trend : option trend) : Z :=
  (match trend with Some Negative => 30 | _ => 0 end)
  + zsum (List.map (fun r => zsum (List.map (term_points (record_text r)) risk_keywords))
            records)
  + (if Z.of_nat (length records) >? 50 then 10 else 0)
  + (if Z.of_nat (length records) <? 3 then 15 else 0).

Definition risk_hits (records : list EmailRecord) : Z :=
  zsum (List.map (fun r => Z.of_nat (hits (List.map fst risk_keywords) (record_text r)))
          records).

(** Criticality score, as the specification words it: the weights of the
    risk terms present plus 5 for each urgency term present. *)
Definition criticality_points (text : str) : Z :=
  zsum (List.map (fun kw : str * Z => if in_str (fst kw) text then snd kw else 0)
          risk_keywords)
  + 5 * Z.of_nat (hits urgent_words text).

(** The entry [identify_critical_emails] builds for a record it keeps. *)
Definition entry_of (r : EmailRecord) : critical_email :=
  {| c_subject := r_subject r; c_from := r_from r; c_date := r_date r;
     criticality_score := fst (criticality (record_text r));
     flags := snd (criticality (record_text r));
     preview := if (150 <? length (r_body r))%nat
                then firstn 150 (r_body r) ++ u "..." else r_body r |}.

Definition critical (r : EmailRecord) : bool :=
  criticality_points (record_text r) >=? 4.

(** The reading of "a record appears in the returned list iff its score
    is at least 4". *)
Definition appears_iff_critical (records : list EmailRecord) : Prop :=
  forall r, In r records ->
    (In (entry_of r) (identify_critical_emails (List.map content records))
     <-> 4 <= criticality_points (record_text r)).

(** [text.count(term)] on the text of a stored e-mail. *)
Definition term_count (term : str) (e : email_data) : Z :=
  match search_text e with
  | Ok text => count term text
  | Raise _ => 0
  end.

(** [project_data[project]['keywords'][term]], 0 where there is no entry. *)
Definition keyword_count (project_data : gmap str bucket) (project term : str) : Z :=
  match project_data !! project with
  | Some b => default 0 (keywords b !! term)
  | None => 0
  end.

(** The tallies of every bucket are those of the e-mails it holds. *)
Definition tallied (pd : gmap str bucket) : Prop :=
  forall project b, pd !! project = Some b ->
    forall term,
      (In term project_keywords ->
       default 0 (keywords b !! term) = zsum (List.map (term_count term) (emails b)))
      /\ (~ In term project_keywords -> keywords b !! term = None).

(** The entry the sentiment loop appends for a record scored by the basic
    scorer, and by a model that answered [res]. *)
Definition basic_sentiment (r : EmailRecord) : sentiment_result :=
  {| s_subject := r_subject r;
     sentiment := label (analyze_sentiment_basic (text512 r));
     confidence := score (analyze_sentiment_basic (text512 r));
     s_date := r_date r; method := Basic |}.

Definition ml_sentiment (r : EmailRecord) (res : scored) : sentiment_result :=
  {| s_subject := r_subject r; sentiment := label res; confidence := score res;
     s_date := r_date r; method := ML |}.

(** The entry appended for a record that is scored, whichever scorer
    answered. *)
Definition scored_entry (self : analyzer) (r : EmailRecord) : sentiment_result :=
  match sentiment_available self, sentiment_analyzer self with
  | true, Some model =>
      match model (text512 r) with
      | Ok res => ml_sentiment r res
      | Raise _ => basic_sentiment r
      end
  | _, _ => basic_sentiment r
  end.

(** The records the sentiment loop does not skip. *)
Definition scored_records (records : list EmailRecord) : list EmailRecord :=
  List.filter (fun r => negb (blank (text512 r))) records.

(** The number of entries whose label is exactly [tag]. *)
Definition exact_count (tag : str) (sentiments : list sentiment_result) : Z :=
  Z.of_nat (length (List.filter (fun s => bool_decide (sentiment s = tag)) sentiments)).

(** The three labels of the basic scorer. *)
Definition basic_label (l : str) : Prop :=
  l = u "POSITIVE" \/ l = u "NEGATIVE" \/ l = u "NEUTRAL".

(** The reading of "for every list the summary carries the tallies and a
    trend, NEUTRAL on a tie". *)
Definition has_trend (self : analyzer) (records : list EmailRecord) : Prop :=
  exists st,
    stats (analyze_sentiment self (List.map content records)) = Some st /\
    tendance st =
      (if sentiment_positif st >? sentiment_negatif st then Positive
       else if sentiment_negatif st >? sentiment_positif st then Negative
       else Neutre).

(** A call fails fast when it raises. *)
Definition fails_fast {A} (r : result A) : Prop := exists e, r = Raise e.

Definition documented_level (l : risk_level) : Prop :=
  l = FAIBLE \/ l = MODERE \/ l = CRITIQUE.

(** ** Notions used in the further properties *)

(** A record matches a filter. *)
Definition matches (p : str) (r : EmailRecord) : bool :=
  in_str (lower p) (record_text r).

(** How many times [p] is listed among the filters the record matches. *)
Definition copies (project_filters : list str) (p : str) (r : EmailRecord) : nat :=
  length (List.filter (fun f => bool_decide (f = p))
            (List.filter (fun f => matches f r) project_filters)).

(** The records a bucket receives, in order. *)
Definition stored (project_filters : list str) (p : str) (records : list EmailRecord)
    : list EmailRecord :=
  flat_map (fun r => repeat r (copies project_filters p r)) records.

(** The addresses found in the two header fields of a record. *)
Definition record_addresses (r : EmailRecord) : gset str :=
  match r_from r with
  | [] => ∅
  | f => list_to_set (findall_email f)
  end ∪
  match r_to r with
  | [] => ∅
  | t => list_to_set (findall_email t)
  end.

Definition addresses_of (records : list EmailRecord) : gset str :=
  ⋃ (List.map record_addresses records).

(** A bucket without its tallies. *)
Definition without_keywords (b : bucket) : bucket :=
  {| emails := emails b; participants := participants b;
     keywords := ∅; dates := dates b |}.

(** The dict has the keys the sentiment loop reads, and the keys the
    ranking of critical e-mails reads. *)
Definition has_sentiment_keys (e : email_data) : bool :=
  match subject e, body e, date e with
  | Some _, Some _, Some _ => true
  | _, _, _ => false
  end.

Definition has_entry_keys (e : email_data) : bool :=
  match subject e, from e, date e, body e with
  | Some _, Some _, Some _, Some _ => true
  | _, _, _, _ => false
  end.

Definition has_text_keys (e : email_data) : bool :=
  match subject e, body e with
  | Some _, Some _ => true
  | _, _ => false
  end.

(** What a bucket looks like after [k] copies of a record were added. *)
Definition grown (r : EmailRecord) (k : nat) (b b' : bucket) : Prop :=
  emails b' = emails b ++ repeat (content r) k /\
  dates b' = dates b ++ repeat (r_date r) k /\
  participants b' = participants b ∪ record_addresses r.

(** The state of the buckets after the records [records]. *)
Definition filled (fs : list str) (records : list EmailRecord)
    (pd : gmap str bucket) : Prop :=
  forall p,
    match pd !! p with
    | Some b =>
        stored fs p records <> [] /\
        emails b = List.map content (stored fs p records) /\
        dates b = List.map r_date (stored fs p records) /\
        participants b = addresses_of (stored fs p records)
    | None => stored fs p records = []
    end.

(** Every e-mail of every bucket was fetched and matches the bucket's
    filter, and no bucket has more dates than e-mails. *)
Definition sound (fs : list str) (fetched : list email_data)
    (pd : gmap str bucket) : Prop :=
  forall p b, pd !! p = Some b ->
    In p fs /\ emails b <> [] /\
    (length (dates b) <= length (emails b))%nat /\
    forall e, In e (emails b) ->
      In e fetched /\
      exists text, search_text e = Ok text /\ in_str (lower p) text = true.

(** Every count stored in a tally is at least 1. *)
Definition positive_counts (kws : gmap str Z) : Prop :=
  forall term n, kws !! term = Some n -> 1 <= n.

(** The text handed to the summarizer for records: the last three, each
    as [subject + ". " + body + " "], cut at 800 characters. *)
Definition combined_text (records : list EmailRecord) : str :=
  firstn 800
    (concat (List.map (fun r => (r_subject r ++ u ". " ++ r_body r) ++ u " ")
               (last_n 3 records))).

(** [parsed_dates] of [generate_summary] after its loop. *)
Definition parsed_dates (lib : summary_lib) (dates : list (option str)) : list Z :=
  fold_left (parse_step lib) dates [].

(** ** Notions used for the fallback as the output shows it *)



(** ** Sample inputs *)

Definition mail (s b : string) : EmailRecord :=
  {| r_subject := u s; r_from := u "a@x.com"; r_to := u "b@y.org";
     r_date := None; r_body := u b |}.

(** Scenario A of the specification. *)
Definition atlas_mail : EmailRecord :=
  mail "Atlas deadline urgent" "budget approved, atlas delivery urgent".

Definition six_urgent : list EmailRecord :=
  [ mail "urgent 1" ""; mail "urgent 2" ""; mail "urgent 3" "";
    mail "urgent 4" ""; mail "urgent 5" ""; mail "urgent 6" "" ].

(** A dict without the ['subject'] key. *)
Definition no_subject : email_data :=
  {| subject := None; from := Some (u "a@x.com"); to := Some (u "b@y.org");
     date := Some None; body := Some (u "urgent") |}.

Definition no_summary : sentiment_data := {| emails_analyses := 0; stats := None |}.

Definition no_model : analyzer :=
  {| sentiment_available := false; sentiment_analyzer := None |}.

Definition failing_model : analyzer :=
  {| sentiment_available := true;
     sentiment_analyzer := Some (fun _ => Raise ModelError) |}.

Definition working_model : analyzer :=
  {| sentiment_available := true;
     sentiment_analyzer :=
       Some (fun _ => Ok {| label := u "positive"; score := 0.9%float |}) |}.

Definition five_praises : str := u "réussi succès bien parfait excellent".

Definition no_addresses (s : str) : list str := [].
Definition no_mean (l : list float) : float := 0%float.

(** ** Sample inputs for the further properties *)

(** A library stand-in: a date is read as its length and printed as the
    one character of that code; the tally is listed in the order of the
    map. *)
Definition sample_lib : summary_lib :=
  {| parse_local := fun d => Ok (Z.of_nat (length d));
     format_date := fun t => [Z.to_N t];
     keyword_items := map_to_list |}.

Definition sample_bucket : bucket :=
  {| emails := [content atlas_mail];
     participants := {[ u "a@x.com" ]};
     keywords := <[u "urgent" := 2%Z]> (<[u "budget" := 1%Z]> ∅);
     dates := [Some (u "Mon, 1 Jan 2024"); None] |}.

Definition no_summarizer : summarizer_state :=
  {| summarizer_available := false; summarizer := None;
     round_ratio := fun _ _ => 0%float |}.

Definition no_patterns : entity_patterns :=
  {| find_emails := fun _ => []; find_montants := fun _ => [];
     find_urls := fun _ => [] |}.

(** A dict that matches "Atlas" and has no date key. *)
Definition no_date : email_data :=
  {| subject := Some (u "Atlas"); from := Some (u "a@x.com");
     to := Some (u "b@y.org"); date := None; body := Some (u "urgent") |}.



(** * Properties *)

(** ** Strings *)

Example u_probleme : u "problème" = [112; 114; 111; 98; 108; 232; 109; 101]%N.
Proof. reflexivity. Qed.

Example count_no_overlap : count (u "aa") (u "aaaaa") = 2%Z.
Proof. reflexivity. Qed.

Example strip_blank : strip (u "  	 ") = [].
Proof. reflexivity. Qed.

Lemma starts_with_spec (p s : str) :
  starts_with p s = true <-> exists t, s = p ++ t.
Proof.
  revert s. induction p as [|a p IH]; intros s; simpl.
  - split; [intros _; now exists s | reflexivity].
  - destruct s as [|b s]; simpl.
    + split; [discriminate | intros [t Ht]; discriminate].
    + rewrite andb_true_iff, N.eqb_eq, IH. split.
      * intros [-> [t ->]]. now exists t.
      * intros [t Ht]. injection Ht as -> ->. split; [reflexivity | now exists t].
Qed.

Lemma in_str_spec (sub s : str) : in_str sub s = true <-> substring sub s.
Proof.
  unfold substring. induction s as [|c s IH]; simpl.
  - rewrite orb_false_r, starts_with_spec. split.
    + intros [t Ht]. exists [], t. exact Ht.
    + intros [a [b Hab]]. destruct a; [now exists b | discriminate].
  - rewrite orb_true_iff, starts_with_spec, IH. split.
    + intros [[t Ht] | [a [b Hab]]].
      * exists [], t. exact Ht.
      * exists (c :: a), b. simpl. now rewrite Hab.
    + intros [a [b Hab]]. destruct a as [|c' a]; simpl in Hab.
      * left. now exists b.
      * right. injection Hab as _ ->. now exists a, b.
Qed.

Lemma count_from_nonneg (sub : str) (s : str) (k : nat) : (0 <= count_from sub k s)%Z.
Proof.
  revert k. induction s as [|c s IH]; intros k; simpl; [lia|].
  destruct k; [|apply IH].
  destruct (starts_with sub (c :: s)); [specialize (IH (length sub - 1)%nat); lia | apply IH].
Qed.

Lemma count_nonneg (sub s : str) : (0 <= count sub s)%Z.
Proof. destruct sub; simpl; [lia | apply count_from_nonneg]. Qed.

Lemma count_from_absent (sub : str) (s : str) (k : nat) :
  in_str sub s = false -> count_from sub k s = 0%Z.
Proof.
  revert k. induction s as [|c s IH]; intros k H; simpl; [reflexivity|].
  simpl in H. apply orb_false_iff in H as [Hp Hs].
  destruct k; [|now apply IH].
  rewrite Hp. now apply IH.
Qed.

(** [sub in s] is false exactly when [s.count(sub)] is 0. *)
Lemma count_absent (sub s : str) : in_str sub s = false -> count sub s = 0%Z.
Proof.
  destruct sub as [|a sub]; intros H.
  - destruct s; discriminate.
  - now apply count_from_absent.
Qed.

Lemma count_present (sub s : str) : in_str sub s = true -> (0 < count sub s)%Z.
Proof.
  destruct sub as [|a sub]; intros H; [simpl; lia|].
  change (count (a :: sub) s) with (count_from (a :: sub) 0 s).
  induction s as [|c s IH]; [discriminate|].
  cbn [count_from]. cbn [in_str] in H.
  destruct (starts_with (a :: sub) (c :: s)).
  - pose proof (count_from_nonneg (a :: sub) s (length (a :: sub) - 1)). lia.
  - now apply IH.
Qed.

Lemma lstrip_nil (s : str) : lstrip s = [] <-> forallb isspace s = true.
Proof.
  induction s as [|c s IH]; simpl; [tauto|].
  destruct (isspace c); simpl; [exact IH | split; discriminate].
Qed.

(** [not text.strip()] holds exactly for the texts made of whitespace. *)
Lemma strip_nil (s : str) : strip s = [] <-> forallb isspace s = true.
Proof.
  rewrite <- lstrip_nil. unfold strip, rstrip. split.
  - intros H. destruct (lstrip s) as [|c t] eqn:E; [reflexivity|].
    exfalso.
    assert (Hc : isspace c = false).
    { clear H. induction s as [|d s IH]; [discriminate|]. simpl in E.
      destruct (isspace d) eqn:Ed; [now apply IH | now injection E as -> _]. }
    apply (f_equal (@rev N)) in H. rewrite rev_involutive in H. simpl in H.
    apply lstrip_nil in H. rewrite forallb_app in H. simpl in H.
    rewrite Hc in H. rewrite andb_false_r in H. discriminate.
  - intros ->. reflexivity.
Qed.

(** ** Sums and the stable sort *)

Lemma zsum_cons (x : Z) (l : list Z) : zsum (x :: l) = x + zsum l.
Proof. reflexivity. Qed.

Lemma zsum_app (l1 l2 : list Z) : zsum (l1 ++ l2) = zsum l1 + zsum l2.
Proof. induction l1 as [|x l1 IH]; simpl; lia. Qed.

Lemma zsum_perm (l1 l2 : list Z) : Permutation l1 l2 -> zsum l1 = zsum l2.
Proof. induction 1; simpl; lia. Qed.

Lemma zsum_nonneg (l : list Z) : Forall (fun x => 0 <= x) l -> 0 <= zsum l.
Proof. induction 1; simpl; lia. Qed.

Lemma zsum_member (l : list Z) (x : Z) :
  Forall (fun y => 0 <= y) l -> In x l -> x <= zsum l.
Proof.
  induction 1 as [|y l Hy Hl IH]; simpl; [tauto|].
  pose proof (zsum_nonneg l Hl). intros [-> | Hx]; [lia | specialize (IH Hx); lia].
Qed.

Lemma in_firstn {A} (n : nat) (l : list A) (x : A) : In x (firstn n l) -> In x l.
Proof.
  revert n. induction l as [|a l IHl]; intros [|n]; simpl; try tauto.
  intros [-> | H]; [now left | right; eauto].
Qed.

Section Sorting.
Context {A : Type} (key : A -> Z).

Lemma insert_desc_perm (x : A) (l : list A) :
  Permutation (insert_desc key x l) (x :: l).
Proof.
  induction l as [|y l IH]; simpl; [reflexivity|].
  destruct (key y <=? key x); [reflexivity|].
  rewrite IH. apply perm_swap.
Qed.

Lemma sort_desc_perm (l : list A) : Permutation (sort_desc key l) l.
Proof.
  induction l as [|x l IH]; simpl; [reflexivity|].
  rewrite insert_desc_perm. now apply perm_skip.
Qed.

Lemma insert_desc_sorted (x : A) (l : list A) :
  StronglySorted (desc key) l -> StronglySorted (desc key) (insert_desc key x l).
Proof.
  induction 1 as [|y l Hl IH Hy]; simpl.
  - repeat constructor.
  - destruct (key y <=? key x) eqn:E.
    + apply Z.leb_le in E. constructor; [now constructor|].
      constructor; [exact E|].
      apply List.Forall_forall. intros z Hz.
      rewrite List.Forall_forall in Hy. specialize (Hy z Hz). unfold desc in *. lia.
    + apply Z.leb_gt in E. constructor; [exact IH|].
      apply List.Forall_forall. intros z Hz.
      apply (Permutation_in _ (insert_desc_perm x l)) in Hz.
      destruct Hz as [<- | Hz]; [unfold desc; lia|].
      rewrite List.Forall_forall in Hy. now apply Hy.
Qed.

Lemma sort_desc_sorted (l : list A) : StronglySorted (desc key) (sort_desc key l).
Proof.
  induction l as [|x l IH]; simpl; [constructor | now apply insert_desc_sorted].
Qed.

(** Stability: the elements of any one key keep their order. *)
Lemma insert_desc_stable (k : Z) (x : A) (l : list A) :
  List.filter (fun a => key a =? k) (insert_desc key x l)
  = List.filter (fun a => key a =? k) (x :: l).
Proof.
  induction l as [|y l IH]; [reflexivity|].
  cbn [insert_desc]. destruct (key y <=? key x) eqn:E; [reflexivity|].
  apply Z.leb_gt in E. cbn [List.filter] in *. rewrite IH.
  destruct (key x =? k) eqn:Ex; [|reflexivity].
  apply Z.eqb_eq in Ex.
  assert ((key y =? k) = false) as -> by (apply Z.eqb_neq; lia). reflexivity.
Qed.

Lemma sort_desc_stable (k : Z) (l : list A) :
  List.filter (fun a => key a =? k) (sort_desc key l)
  = List.filter (fun a => key a =? k) l.
Proof.
  induction l as [|x l IH]; [reflexivity|].
  cbn [sort_desc]. rewrite insert_desc_stable. cbn [List.filter]. now rewrite IH.
Qed.

Lemma firstn_sorted (n : nat) (l : list A) :
  StronglySorted (desc key) l -> StronglySorted (desc key) (firstn n l).
Proof.
  intros H. revert n. induction H as [|y l Hl IH Hy]; intros [|n]; simpl;
    try constructor; [apply IH|].
  apply List.Forall_forall. intros z Hz. rewrite List.Forall_forall in Hy.
  apply Hy. now apply in_firstn with n.
Qed.

Lemma firstn_filter_prefix (p : A -> bool) (n : nat) (l : list A) :
  exists rest, List.filter p l = List.filter p (firstn n l) ++ rest.
Proof.
  exists (List.filter p (skipn n l)).
  rewrite <- List.filter_app. now rewrite firstn_skipn.
Qed.

(** The sorted list is determined by the three properties above, so
    [sort_desc] computes what any stable descending sort does. *)
Lemma stable_sort_unique (l l1 l2 : list A) :
  StronglySorted (desc key) l1 -> StronglySorted (desc key) l2 ->
  (forall k, List.filter (fun a => key a =? k) l1 = List.filter (fun a => key a =? k) l) ->
  (forall k, List.filter (fun a => key a =? k) l2 = List.filter (fun a => key a =? k) l) ->
  l1 = l2.
Proof.
  intros S1 S2 F1 F2.
  assert (F : forall k, List.filter (fun a => key a =? k) l1
                        = List.filter (fun a => key a =? k) l2)
    by (intros k; now rewrite F1, F2).
  clear F1 F2 l. revert l2 S2 F.
  induction S1 as [|x l1 S1 IH H1]; intros l2 S2 F.
  - destruct l2 as [|y l2]; [reflexivity|].
    specialize (F (key y)). simpl in F. rewrite Z.eqb_refl in F. discriminate.
  - destruct l2 as [|y l2].
    { specialize (F (key x)). simpl in F. rewrite Z.eqb_refl in F. discriminate. }
    inversion S2 as [|? ? S2' H2]; subst.
    assert (Hxy : key x = key y).
    { pose proof (F (key x)) as Fx. pose proof (F (key y)) as Fy.
      simpl in Fx, Fy. rewrite Z.eqb_refl in Fx, Fy.
      destruct (key y =? key x) eqn:E1; [apply Z.eqb_eq in E1; lia|].
      destruct (key x =? key y) eqn:E2; [apply Z.eqb_eq in E2; lia|].
      assert (In x (List.filter (fun a => key a =? key x) l2))
        by (rewrite <- Fx; now left).
      assert (In y (List.filter (fun a => key a =? key y) l1))
        by (rewrite Fy; now left).
      apply List.filter_In in H as [Hx _]. apply List.filter_In in H0 as [Hy _].
      rewrite List.Forall_forall in H1, H2.
      specialize (H1 y Hy). specialize (H2 x Hx). unfold desc in *.
      apply Z.eqb_neq in E1. lia. }
    pose proof (F (key x)) as Fx. simpl in Fx.
    rewrite Z.eqb_refl in Fx. rewrite <- Hxy, Z.eqb_refl in Fx.
    injection Fx as -> Fx. f_equal. apply IH; [exact S2'|].
    intros k. specialize (F k). simpl in F.
    destruct (key y =? k); [now injection F | exact F].
Qed.
End Sorting.

(** ** Relevance and keyword tallies *)

Lemma search_text_content (r : EmailRecord) :
  search_text (content r) = Ok (record_text r).
Proof. reflexivity. Qed.

Lemma project_keywords_nodup : NoDup project_keywords.
Proof. apply (bool_decide_unpack _). vm_compute. exact I. Qed.

Lemma tally_step_lookup (text : str) (L : list str) (kws : gmap str Z) (term : str) :
  NoDup L ->
  default 0
    (fold_left
       (fun keywords keyword =>
          if in_str keyword text
          then <[keyword := default 0 (keywords !! keyword) + count keyword text]> keywords
          else keywords) L kws !! term)
  = default 0 (kws !! term) + (if bool_decide (term ∈ L) then count term text else 0).
Proof.
  clear lower findall_email mean_round2.
  intros HL. revert kws. induction HL as [|k L Hk HL IH]; intros kws.
  - cbn [fold_left]. rewrite bool_decide_false by apply not_elem_of_nil. lia.
  - cbn [fold_left]. rewrite IH. clear IH.
    destruct (decide (term = k)) as [->|Hne].
    + rewrite (bool_decide_false (k ∈ L)) by exact Hk.
      rewrite (bool_decide_true (k ∈ k :: L)) by apply list_elem_of_here.
      destruct (in_str k text) eqn:E.
      * rewrite lookup_insert_eq. simpl. lia.
      * rewrite (count_absent _ _ E). lia.
    + assert (Hiff : bool_decide (term ∈ k :: L) = bool_decide (term ∈ L)).
      { apply bool_decide_ext. rewrite elem_of_cons. intuition congruence. }
      rewrite Hiff. destruct (in_str k text); [|reflexivity].
      rewrite lookup_insert_ne by congruence. reflexivity.
Qed.

Lemma tally_lookup (text : str) (kws : gmap str Z) (term : str) :
  default 0 (tally text kws !! term)
  = default 0 (kws !! term)
    + (if bool_decide (term ∈ project_keywords) then count term text else 0).
Proof. apply tally_step_lookup, project_keywords_nodup. Qed.

Lemma tally_fresh (text : str) (kws : gmap str Z) (term : str) :
  ~ In term project_keywords -> tally text kws !! term = kws !! term.
Proof.
  unfold tally. generalize project_keywords as L. intros L. revert kws.
  induction L as [|k L IH]; intros kws Hn; [reflexivity|].
  cbn [fold_left]. rewrite IH by (intros H; apply Hn; now right).
  destruct (in_str k text); [|reflexivity].
  apply lookup_insert_ne. intros ->. apply Hn. now left.
Qed.

Lemma tally_monotone (text : str) (kws : gmap str Z) (term : str) :
  default 0 (kws !! term) <= default 0 (tally text kws !! term).
Proof.
  clear lower findall_email mean_round2.
  rewrite tally_lookup. pose proof (count_nonneg term text).
  destruct (bool_decide (term ∈ project_keywords)); lia.
Qed.

(** What one pass of the project loop does for a well-formed e-mail. *)
Lemma record_in_project_content (r : EmailRecord) (project : str)
    (pd : gmap str bucket) :
  exists ps,
    record_in_project (content r) project pd =
      (<[project :=
           {| emails := emails (default new_bucket (pd !! project)) ++ [content r];
              participants := ps;
              keywords := tally (record_text r)
                            (keywords (default new_bucket (pd !! project)));
              dates := dates (default new_bucket (pd !! project)) ++ [r_date r] |}]> pd,
       Ok tt).
Proof.
  unfold record_in_project. cbn [content date].
  destruct (extract_participants (content r) _) as [ps res] eqn:Ep.
  assert (res = Ok tt) as ->.
  { unfold extract_participants in Ep. cbn [content from to] in Ep.
    now injection Ep as _ <-. }
  unfold extract_keywords. rewrite search_text_content. cbn [bind].
  exists ps. reflexivity.
Qed.

(** Whatever the e-mail, one pass rewrites only the bucket of [project],
    and leaves its tallies as they were or adds one text to them. *)
Lemma record_in_project_keywords (e : email_data) (project : str)
    (pd : gmap str bucket) :
  exists b',
    fst (record_in_project e project pd) = <[project := b']> pd /\
    (keywords b' = keywords (default new_bucket (pd !! project)) \/
     exists text,
       keywords b' = tally text (keywords (default new_bucket (pd !! project)))).
Proof.
  unfold record_in_project.
  destruct (date e) as [d|]; [|eexists; split; [reflexivity | now left]].
  destruct (extract_participants _ _) as [ps [[]|x]] eqn:Ep; cbn [participants keywords emails dates].
  - unfold extract_keywords, search_text, subject_body.
    destruct (subject e), (body e); cbn [bind getitem fst];
      eexists; (split; [reflexivity|]); cbn [keywords]; eauto.
  - eexists; split; [reflexivity | now left].
Qed.

Lemma tallied_record_in_projects (r : EmailRecord) (projects : list str)
    (pd : gmap str bucket) :
  tallied pd -> tallied (fst (record_in_projects (content r) projects pd)).
Proof.
  revert pd. induction projects as [|p projects IH]; intros pd Hpd; [exact Hpd|].
  cbn [record_in_projects].
  destruct (record_in_project_content r p pd) as [ps ->].
  apply IH. clear IH. intros q b Hq term.
  destruct (decide (p = q)) as [->|Hne].
  - rewrite lookup_insert_eq in Hq. injection Hq as <-. cbn [keywords emails].
    assert (Hb : forall t,
               (In t project_keywords ->
                default 0 (keywords (default new_bucket (pd !! q)) !! t)
                = zsum (List.map (term_count t) (emails (default new_bucket (pd !! q)))))
               /\ (~ In t project_keywords ->
                   keywords (default new_bucket (pd !! q)) !! t = None)).
    { destruct (pd !! q) as [b|] eqn:E; cbn [default new_bucket keywords emails].
      - exact (Hpd q b E).
      - intros t. split; intros _; reflexivity. }
    split.
    + intros Hin. rewrite tally_lookup, bool_decide_true by now apply list_elem_of_In.
      rewrite List.map_app, zsum_app. rewrite (proj1 (Hb term) Hin).
      cbn [List.map zsum fold_right].
      change (term_count term (content r)) with (count term (record_text r)). lia.
    + intros Hn. rewrite tally_fresh by exact Hn. now apply Hb.
  - rewrite lookup_insert_ne in Hq by exact Hne. exact (Hpd q b Hq term).
Qed.

Lemma tallied_process_email (fs : list str) (pd : gmap str bucket) (r : EmailRecord) :
  tallied pd -> tallied (process_email fs pd (content r)).
Proof.
  intros Hpd. unfold process_email.
  destruct (check_project_relevance (content r) fs) as [[|p ps]|]; try exact Hpd.
  now apply tallied_record_in_projects.
Qed.

Lemma tallied_search (fs : list str) (records : list EmailRecord) :
  tallied (search_project_emails fs (List.map content records)).
Proof.
  unfold search_project_emails.
  assert (H0 : tallied ∅) by (intros p b H; rewrite lookup_empty in H; discriminate).
  revert H0. generalize (∅ : gmap str bucket) as pd.
  induction records as [|r records IH]; intros pd Hpd; [exact Hpd|].
  cbn [List.map fold_left]. apply IH. now apply tallied_process_email.
Qed.

Lemma keyword_count_default (pd : gmap str bucket) (project term : str) :
  keyword_count pd project term
  = default 0 (keywords (default new_bucket (pd !! project)) !! term).
Proof. unfold keyword_count. destruct (pd !! project); reflexivity. Qed.

Lemma record_in_projects_monotone (e : email_data) (projects : list str)
    (pd : gmap str bucket) (project term : str) :
  keyword_count pd project term
  <= keyword_count (fst (record_in_projects e projects pd)) project term.
Proof.
  revert pd. induction projects as [|p projects IH]; intros pd; [cbn; lia|].
  cbn [record_in_projects].
  destruct (record_in_project_keywords e p pd) as [b' [Hfst Hk]].
  destruct (record_in_project e p pd) as [pd' res]. cbn [fst] in Hfst. subst pd'.
  assert (Hstep : keyword_count pd project term
                  <= keyword_count (<[p := b']> pd) project term).
  { destruct (decide (p = project)) as [->|Hne].
    - rewrite keyword_count_default. unfold keyword_count.
      rewrite lookup_insert_eq.
      destruct Hk as [-> | [text ->]]; [lia | apply tally_monotone].
    - unfold keyword_count. rewrite lookup_insert_ne by exact Hne. lia. }
  destruct res as [[]|x]; [|exact Hstep].
  etransitivity; [exact Hstep | apply IH].
Qed.

(** ** Risk score and criticality *)

Lemma risk_weights_nonneg : Forall (fun kw : str * Z => 0 <= snd kw) risk_keywords.
Proof. repeat constructor; cbn; lia. Qed.

Lemma term_points_nonneg (text : str) (L : list (str * Z)) :
  Forall (fun kw : str * Z => 0 <= snd kw) L ->
  0 <= zsum (List.map (term_points text) L).
Proof.
  intros H. apply zsum_nonneg. induction H as [|kw L Hkw HL IH]; constructor; [|exact IH].
  unfold term_points. destruct (in_str (fst kw) text); lia.
Qed.

Lemma risk_keyword_fold (text : str) (L : list (str * Z)) (s c : Z) :
  fold_left (risk_keyword_step text) L (s, c)
  = (s + zsum (List.map (term_points text) L),
     c + Z.of_nat (hits (List.map fst L) text)).
Proof.
  revert s c. induction L as [|[k w] L IH]; intros s c.
  - cbn. f_equal; lia.
  - cbn [fold_left risk_keyword_step]. unfold hits in *. cbn [List.map List.filter fst].
    unfold term_points at 1. cbn [fst snd].
    destruct (in_str k text); rewrite IH, zsum_cons; cbn [length]; f_equal; lia.
Qed.

Lemma risk_keyword_loop_content (records : list EmailRecord) (s c : Z) :
  risk_keyword_loop (List.map content records) (s, c)
  = Ok (s + zsum (List.map
                    (fun r => zsum (List.map (term_points (record_text r)) risk_keywords))
                    records),
        c + risk_hits records).
Proof.
  revert s c. induction records as [|r records IH]; intros s c.
  - cbn. do 2 f_equal; lia.
  - cbn [List.map risk_keyword_loop]. rewrite search_text_content. cbn [bind].
    rewrite risk_keyword_fold, IH. unfold risk_hits. cbn [List.map].
    rewrite !zsum_cons. do 2 f_equal; lia.
Qed.

Lemma raw_score_nonneg (records : list EmailRecord) (t : option trend) :
  0 <= raw_score records t.
Proof.
  unfold raw_score.
  assert (0 <= zsum (List.map
                      (fun r => zsum (List.map (term_points (record_text r)) risk_keywords))
                      records)).
  { apply zsum_nonneg, List.Forall_forall. intros x Hx.
    apply List.in_map_iff in Hx as [r [<- _]].
    apply term_points_nonneg, risk_weights_nonneg. }
  destruct t as [[]|]; destruct (_ >? 50); destruct (_ <? 3); lia.
Qed.

Lemma raw_score_perm (records records' : list EmailRecord) (t : option trend) :
  Permutation records records' -> raw_score records' t = raw_score records t.
Proof.
  intros H. unfold raw_score.
  rewrite (Permutation_length H).
  rewrite (zsum_perm _ _ (Permutation_map _ H)). reflexivity.
Qed.

Lemma risk_hits_perm (records records' : list EmailRecord) :
  Permutation records records' -> risk_hits records' = risk_hits records.
Proof.
  intros H. unfold risk_hits. now rewrite (zsum_perm _ _ (Permutation_map _ H)).
Qed.

(** The [try] block raises exactly when a key of some e-mail is missing. *)
Lemma risk_keyword_loop_raises (emails : list email_data) (st : Z * Z) :
  (exists e, risk_keyword_loop emails st = Raise e)
  <-> Exists (fun m => subject m = None \/ body m = None) emails.
Proof.
  revert st. induction emails as [|m emails IH]; intros st.
  - cbn. split; [intros [e He]; discriminate | intros H; inversion H].
  - cbn [risk_keyword_loop]. unfold search_text, subject_body.
    destruct (subject m) as [s|] eqn:Es; cbn [bind getitem].
    + destruct (body m) as [b|] eqn:Eb; cbn [bind getitem].
      * rewrite IH. split; [intros H; now right|].
        intros H. inversion H as [? ? [Hs|Hb]|]; subst; congruence || assumption.
      * split; [intros _; left; now right | intros _; eexists; reflexivity].
    + split; [intros _; left; now left | intros _; eexists; reflexivity].
Qed.

Lemma risk_body_raises (emails : list email_data) (sd : sentiment_data) :
  (exists e, risk_body emails sd = Raise e)
  <-> Exists (fun m => subject m = None \/ body m = None) emails.
Proof.
  unfold risk_body.
  set (st0 := match get_tendance sd with
              | Some Negative => (0 + 30, [] ++ [SentimentNegatif])
              | _ => (0, [])
              end).
  destruct st0 as [s0 f0].
  rewrite <- (risk_keyword_loop_raises emails (s0, 0)).
  destruct (risk_keyword_loop emails (s0, 0)) as [[s c]|e]; cbn [bind].
  - split; intros [e He]; [|discriminate].
    destruct (Z.of_nat (length emails) >? 50), (Z.of_nat (length emails) <? 3);
      discriminate.
  - split; intros _; eexists; reflexivity.
Qed.

Lemma risk_body_level (emails : list email_data) (sd : sentiment_data)
    (a : risk_assessment) :
  risk_body emails sd = Ok a ->
  documented_level (niveau_risque a) /\
  facteurs_risque a <> None /\ recommandation a <> None.
Proof.
  unfold risk_body.
  destruct (match get_tendance sd with
            | Some Negative => (0 + 30, [] ++ [SentimentNegatif])
            | _ => (0, [])
            end) as [s0 f0].
  destruct (risk_keyword_loop emails (s0, 0)) as [[s c]|e]; cbn [bind]; [|discriminate].
  unfold documented_level.
  destruct (Z.of_nat (length emails) >? 50), (Z.of_nat (length emails) <? 3);
    intros [= <-]; cbn;
    repeat match goal with |- context [if ?b then _ else _] => destruct b end;
    intuition discriminate.
Qed.

Lemma risk_flag_fold (text : str) (L : list (str * Z)) (s : Z) (f : list str) :
  fold_left (risk_flag_step text) L (s, f)
  = (s + zsum (List.map (fun kw : str * Z => if in_str (fst kw) text then snd kw else 0) L),
     f ++ List.filter (fun k => in_str k text) (List.map fst L)).
Proof.
  revert s f. induction L as [|[k w] L IH]; intros s f.
  - cbn. rewrite app_nil_r. f_equal; lia.
  - cbn [fold_left risk_flag_step List.map List.filter fst snd].
    destruct (in_str k text); rewrite IH, zsum_cons.
    + rewrite <- app_assoc. f_equal; lia.
    + f_equal; lia.
Qed.

Lemma urgent_fold (text : str) (L : list str) (s : Z) (f : list str) :
  fold_left (urgent_step text) L (s, f)
  = (s + 5 * Z.of_nat (hits L text),
     f ++ List.map (app (u "urgent_")) (List.filter (fun k => in_str k text) L)).
Proof.
  revert s f. induction L as [|k L IH]; intros s f.
  - cbn. rewrite app_nil_r. f_equal; lia.
  - cbn [fold_left urgent_step]. unfold hits in *. cbn [List.filter].
    destruct (in_str k text); rewrite IH; cbn [length List.map].
    + rewrite <- app_assoc. f_equal; lia.
    + f_equal.
Qed.

(** The two loops compute the score the specification describes, and the
    flags are the risk terms found followed by the tagged urgency terms. *)
Lemma criticality_closed (text : str) :
  criticality text
  = (criticality_points text,
     List.filter (fun k => in_str k text) (List.map fst risk_keywords)
     ++ List.map (app (u "urgent_")) (List.filter (fun k => in_str k text) urgent_words)).
Proof. unfold criticality. rewrite risk_flag_fold, urgent_fold. reflexivity. Qed.

Lemma critical_entry_content (r : EmailRecord) :
  critical_entry (content r) = Ok (if critical r then Some (entry_of r) else None).
Proof.
  unfold critical_entry, critical, entry_of. rewrite search_text_content. cbn [bind].
  rewrite criticality_closed. cbn [fst snd].
  destruct (criticality_points (record_text r) >=? 4); reflexivity.
Qed.

Lemma collect_critical_content (records : list EmailRecord) :
  collect_critical (List.map content records)
  = List.map entry_of (List.filter critical records).
Proof.
  induction records as [|r records IH]; [reflexivity|].
  cbn [List.map collect_critical List.filter]. rewrite critical_entry_content.
  destruct (critical r); cbn [List.map]; now rewrite IH.
Qed.

Lemma entry_score (r : EmailRecord) :
  criticality_score (entry_of r) = criticality_points (record_text r).
Proof. unfold entry_of. cbn [criticality_score]. now rewrite criticality_closed. Qed.

Lemma risk_points_member (text : str) (k : str) (w : Z) :
  In (k, w) risk_keywords -> in_str k text = true ->
  w <= zsum (List.map (fun kw : str * Z => if in_str (fst kw) text then snd kw else 0)
               risk_keywords).
Proof.
  intros Hin Hk. apply zsum_member.
  - apply List.Forall_forall. intros x Hx.
    apply List.in_map_iff in Hx as [kw [<- Hkw]].
    pose proof (proj1 (List.Forall_forall _ _) risk_weights_nonneg kw Hkw) as H.
    cbn beta in H. destruct (in_str (fst kw) text); lia.
  - apply List.in_map_iff. exists (k, w). cbn [fst snd]. now rewrite Hk.
Qed.

Lemma hits_member (L : list str) (text k : str) :
  In k L -> in_str k text = true -> (1 <= hits L text)%nat.
Proof.
  clear lower findall_email mean_round2.
  intros Hin Hk. unfold hits.
  assert (H : In k (List.filter (fun word => in_str word text) L))
    by (apply List.filter_In; tauto).
  destruct (List.filter _ L); [destruct H | cbn; lia].
Qed.

(** ** Sentiment *)

Lemma hits_le (L : list str) (text : str) : (hits L text <= length L)%nat.
Proof. unfold hits. apply List.filter_length_le. Qed.

(** On the counts the scorer can see, [count * 0.1] and [0.1 * count]
    are the same binary64 number, and five hits already pass 1.0. *)
Lemma float_tenths (n : nat) :
  (n <= 11)%nat ->
  (float_of_nat n * 0.1 = 0.1 * float_of_nat n)%float /\
  ((5 <= n)%nat -> PrimFloat.ltb 1 (0.6 + float_of_nat n * 0.1) = true).
Proof.
  intros H.
  do 12 (destruct n as [|n]; [split; [vm_compute; reflexivity | intros H5; try lia; vm_compute; reflexivity]|]).
  lia.
Qed.

Lemma basic_label_basic (text : str) : basic_label (label (analyze_sentiment_basic text)).
Proof.
  clear findall_email mean_round2.
  unfold analyze_sentiment_basic, basic_label.
  destruct (_ <? _)%nat; [cbn [label]; tauto|].
  destruct (_ <? _)%nat; cbn [label]; tauto.
Qed.

Lemma sentiment_entry_content (self : analyzer) (r : EmailRecord) :
  sentiment_entry self (content r)
  = Ok (if blank (text512 r) then None else Some (scored_entry self r)).
Proof.
  unfold sentiment_entry, subject_body. cbn [content subject body bind getitem].
  change (firstn 512 (r_subject r ++ u " " ++ r_body r)) with (text512 r).
  destruct (strip (text512 r)) as [|c t] eqn:E.
  - apply strip_nil in E. unfold blank. now rewrite E.
  - assert (Hb : blank (text512 r) = false).
    { unfold blank. destruct (forallb isspace (text512 r)) eqn:Eb; [|reflexivity].
      apply strip_nil in Eb. congruence. }
    rewrite Hb. unfold scored_entry, ml_entry, basic_entry.
    destruct (sentiment_available self); [|reflexivity].
    destruct (sentiment_analyzer self) as [model|]; [|reflexivity].
    destruct (model (text512 r)); reflexivity.
Qed.

Lemma collect_sentiments_content (self : analyzer) (records : list EmailRecord) :
  collect_sentiments self (List.map content records)
  = List.map (scored_entry self) (scored_records records).
Proof.
  induction records as [|r records IH]; [reflexivity|].
  cbn [List.map collect_sentiments]. rewrite sentiment_entry_content.
  unfold scored_records in *. cbn [List.filter].
  destruct (blank (text512 r)); cbn [negb List.map]; now rewrite IH.
Qed.

Lemma scored_entry_basic (self : analyzer) (r : EmailRecord) :
  sentiment_available self = false \/ sentiment_analyzer self = None ->
  scored_entry self r = basic_sentiment r.
Proof.
  unfold scored_entry. intros [-> | ->]; [reflexivity|].
  destruct (sentiment_available self); reflexivity.
Qed.

(** On the basic scorer's labels the substring tests of the tally are
    equality tests, and what is left is the NEUTRAL count. *)
Lemma count_label_exact (l : list sentiment_result) :
  Forall (fun s => basic_label (sentiment s)) l ->
  count_label (u "POSITIVE") l = exact_count (u "POSITIVE") l /\
  count_label (u "NEGATIVE") l = exact_count (u "NEGATIVE") l /\
  Z.of_nat (length l) - count_label (u "POSITIVE") l - count_label (u "NEGATIVE") l
  = exact_count (u "NEUTRAL") l.
Proof.
  unfold count_label, exact_count.
  induction 1 as [|s l Hs Hl IH]; [repeat split|].
  cbn [List.filter length].
  destruct Hs as [-> | [-> | ->]];
    match goal with
    | |- context [in_str (u "POSITIVE") ?x] =>
        let b := eval vm_compute in (in_str (u "POSITIVE") x) in
        change (in_str (u "POSITIVE") x) with b;
        let b := eval vm_compute in (in_str (u "NEGATIVE") x) in
        change (in_str (u "NEGATIVE") x) with b;
        let b := eval vm_compute in (bool_decide (x = u "POSITIVE")) in
        change (bool_decide (x = u "POSITIVE")) with b;
        let b := eval vm_compute in (bool_decide (x = u "NEGATIVE")) in
        change (bool_decide (x = u "NEGATIVE")) with b;
        let b := eval vm_compute in (bool_decide (x = u "NEUTRAL")) in
        change (bool_decide (x = u "NEUTRAL")) with b
    end;
    cbn [length]; lia.
Qed.

(** ** The claims *)

(** C5. For a record and a list of project filters, [check_project_relevance]
    returns, without touching any state, exactly the filters whose
    lower-cased string occurs as a substring of the lower-cased
    [subject + " " + body] (in the order of the filter list); it returns
    the empty list exactly when no filter matches, and a record with no
    match leaves every project bucket as it was. *)
Theorem check_project_relevance_spec (r : EmailRecord) (project_filters : list str) :
  exists matched,
    check_project_relevance (content r) project_filters = Ok matched /\
    (forall f, In f matched <->
               In f project_filters /\ substring (lower f) (record_text r)) /\
    (matched = [] <->
     forall f, In f project_filters -> ~ substring (lower f) (record_text r)) /\
    (matched = [] ->
     forall project_data,
       process_email project_filters project_data (content r) = project_data).
Proof.
  exists (List.filter (fun f => in_str (lower f) (record_text r)) project_filters).
  split; [reflexivity|].
  assert (Hin : forall f,
             In f (List.filter (fun f => in_str (lower f) (record_text r)) project_filters)
             <-> In f project_filters /\ substring (lower f) (record_text r)).
  { intros f. rewrite List.filter_In, in_str_spec. reflexivity. }
  split; [exact Hin|]. split.
  - split.
    + intros E f Hf Hs. assert (H : In f []) by (rewrite <- E; apply Hin; tauto).
      destruct H.
    + intros Hno.
      destruct (List.filter _ project_filters) as [|f l] eqn:E; [reflexivity|].
      exfalso. destruct (proj1 (Hin f) (or_introl eq_refl)) as [Hf Hs].
      exact (Hno f Hf Hs).
  - intros E project_data. unfold process_email, check_project_relevance.
    rewrite search_text_content. cbn [bind]. now rewrite E.
Qed.

(** C6. After [search_project_emails] has recorded a sequence of records,
    the count a bucket holds for a term of the project lexicon is the sum,
    over the e-mails of the bucket, of [text.count(term)] on the lower-cased
    [subject + " " + body]; recording one record adds exactly that record's
    count; processing one more e-mail never decreases a count; and the
    counts are non-negative. *)
Theorem keyword_tally_sum (project_filters : list str) (records : list EmailRecord) :
  (forall project b term,
     search_project_emails project_filters (List.map content records) !! project = Some b ->
     In term project_keywords ->
     default 0 (keywords b !! term) = zsum (List.map (term_count term) (emails b))) /\
  (forall r keywords term,
     In term project_keywords ->
     exists keywords',
       extract_keywords (content r) keywords = Ok keywords' /\
       default 0 (keywords' !! term)
       = default 0 (keywords !! term) + count term (record_text r)) /\
  (forall project_data e project term,
     keyword_count project_data project term
     <= keyword_count (process_email project_filters project_data e) project term) /\
  (forall project term,
     0 <= keyword_count
            (search_project_emails project_filters (List.map content records))
            project term).
Proof.
  pose proof (tallied_search project_filters records) as Hinv.
  split; [|split; [|split]].
  - intros project b term Hb Hin. now apply (Hinv project b Hb term).
  - intros r kws term Hin. exists (tally (record_text r) kws). split; [reflexivity|].
    rewrite tally_lookup, bool_decide_true by now apply list_elem_of_In.
    reflexivity.
  - intros pd e project term. unfold process_email.
    destruct (check_project_relevance e project_filters) as [[|p ps]|]; try lia.
    apply record_in_projects_monotone.
  - intros project term. unfold keyword_count.
    destruct (search_project_emails _ _ !! project) as [b|] eqn:Hb; [|lia].
    destruct (Hinv project b Hb term) as [Hyes Hno].
    destruct (decide (term ∈ project_keywords)) as [Hin|Hout].
    + apply list_elem_of_In in Hin. rewrite (Hyes Hin).
      apply zsum_nonneg, List.Forall_forall. intros x Hx.
      apply List.in_map_iff in Hx as [e [<- _]]. unfold term_count.
      destruct (search_text e); [apply count_nonneg | lia].
    + rewrite Hno; [simpl; lia|]. intros H. apply Hout. now apply list_elem_of_In.
Qed.


(** C1. For every list of records and every sentiment summary, the score
    returned by [calculate_risk_score] is [min(raw_score, 100)], where
    [raw_score] adds 30 for a negative trend, [weight * 3] for every risk
    term present in the lower-cased text of each record, 10 for more than
    50 records and 15 for fewer than 3; the score lies in [0, 100]; the
    level is CRITIQUE exactly from 60 up, MODÉRÉ exactly on [30, 60) and
    FAIBLE exactly below 30; and neither [raw_score] nor the assessment
    depends on the order of the records. *)
Theorem risk_score_bounds (records : list EmailRecord) (sentiment_data : sentiment_data) :
  let a := calculate_risk_score (List.map content records) sentiment_data in
  score_risque a = Z.min (raw_score records (get_tendance sentiment_data)) 100 /\
  0 <= score_risque a <= 100 /\
  (60 <= score_risque a <-> niveau_risque a = CRITIQUE) /\
  (30 <= score_risque a < 60 <-> niveau_risque a = MODERE) /\
  (score_risque a < 30 <-> niveau_risque a = FAIBLE) /\
  (forall records', Permutation records records' ->
     raw_score records' (get_tendance sentiment_data)
     = raw_score records (get_tendance sentiment_data) /\
     calculate_risk_score (List.map content records') sentiment_data = a).
Proof.
  assert (Hcalc : forall rs,
    calculate_risk_score (List.map content rs) sentiment_data
    = let raw := raw_score rs (get_tendance sentiment_data) in
      let level := if raw >=? 60 then CRITIQUE
                   else if raw >=? 30 then MODERE else FAIBLE in
      {| score_risque := Z.min raw 100;
         niveau_risque := level;
         facteurs_risque :=
           Some ((match get_tendance sentiment_data with
                  | Some Negative => [SentimentNegatif] | _ => [] end)
                 ++ (if risk_hits rs >? 0 then [RiskKeywords (risk_hits rs)] else [])
                 ++ (if Z.of_nat (length rs) >? 50 then [VolumeEleve]
                     else if Z.of_nat (length rs) <? 3 then [ActiviteFaible] else []));
         recommandation := Some (get_recommendation level) |}).
  { intros rs. unfold calculate_risk_score, risk_body, raw_score.
    rewrite List.length_map.
    destruct (get_tendance sentiment_data) as [[]|];
      rewrite risk_keyword_loop_content; cbn [bind];
      rewrite ?Z.add_0_l;
      destruct (risk_hits rs >? 0);
      destruct (Z.of_nat (length rs) >? 50) eqn:E50;
      destruct (Z.of_nat (length rs) <? 3) eqn:E3;
      cbn zeta; rewrite ?Z.add_0_r, ?Z.add_0_l, ?app_nil_r; try reflexivity;
      try (exfalso; lia);
      repeat match goal with
             | |- context [?x + ?y >=? ?k] =>
                 replace (x + y) with (y + x) by lia
             end;
      rewrite <- ?Z.add_assoc; try reflexivity;
      f_equal; f_equal; lia. }
  intros a. subst a. rewrite Hcalc. cbn zeta.
  pose proof (raw_score_nonneg records (get_tendance sentiment_data)) as Hraw.
  set (raw := raw_score records (get_tendance sentiment_data)) in *.
  cbn [score_risque niveau_risque].
  split; [reflexivity|]. split; [lia|].
  split; [|split; [|split]].
  - destruct (raw >=? 60) eqn:E60; [split; [reflexivity | lia]|].
    destruct (raw >=? 30); split; (discriminate || lia).
  - destruct (raw >=? 60) eqn:E60; [split; [lia | discriminate]|].
    destruct (raw >=? 30) eqn:E30; split; (reflexivity || discriminate || lia).
  - destruct (raw >=? 60) eqn:E60; [split; [lia | discriminate]|].
    destruct (raw >=? 30) eqn:E30; split; (reflexivity || discriminate || lia).
  - intros records' Hp. split; [now apply raw_score_perm|].
    rewrite Hcalc. cbn zeta. subst raw.
    rewrite (raw_score_perm _ _ _ Hp), (risk_hits_perm _ _ Hp),
      <- (Permutation_length Hp). reflexivity.
Qed.

(** C2, as the code has it. The criticality score of a record is the sum
    of the weights of the risk terms present in its lower-cased text plus 5
    for each urgency term present. Every entry of the list returned by
    [identify_critical_emails] comes from a record whose score is at least
    4; when at most 5 records reach that score, a record appears in the
    list if and only if its score is at least 4 (otherwise the list is cut
    to the first 5 of the sorted entries); the list is sorted descending
    by [criticality_score], entries of equal score keep the order of the
    input, and its length is at most 5. *)
Theorem critical_emails_ranked (records : list EmailRecord) :
  let kept := List.map entry_of (List.filter critical records) in
  let result := identify_critical_emails (List.map content records) in
  (forall r, criticality_score (entry_of r) = criticality_points (record_text r)) /\
  result = firstn 5 (sort_desc criticality_score kept) /\
  (forall c, In c result ->
     4 <= criticality_score c /\ exists r, In r records /\ c = entry_of r) /\
  ((length (List.filter critical records) <= 5)%nat ->
   forall r, In r records ->
     (In (entry_of r) result <-> 4 <= criticality_points (record_text r))) /\
  StronglySorted (desc criticality_score) result /\
  (forall k, exists rest,
     List.filter (fun c => criticality_score c =? k) kept
     = List.filter (fun c => criticality_score c =? k) result ++ rest) /\
  (length result <= 5)%nat.
Proof.
  intros kept result.
  assert (Hres : result = firstn 5 (sort_desc criticality_score kept)).
  { unfold result, identify_critical_emails. now rewrite collect_critical_content. }
  assert (Hkept : forall c, In c kept <->
            exists r, In r records /\ 4 <= criticality_points (record_text r)
                      /\ c = entry_of r).
  { intros c. unfold kept. rewrite List.in_map_iff. split.
    - intros [r [<- Hr]]. apply List.filter_In in Hr as [Hr Hc]. exists r.
      unfold critical in Hc. split; [exact Hr|]. split; [lia | reflexivity].
    - intros [r [Hr [Hc ->]]]. exists r. split; [reflexivity|].
      apply List.filter_In. split; [exact Hr|]. unfold critical. lia. }
  assert (Hsub : forall c, In c result -> In c kept).
  { intros c Hc. rewrite Hres in Hc. apply in_firstn in Hc.
    now apply (Permutation_in _ (sort_desc_perm criticality_score kept)). }
  split; [exact entry_score|]. split; [exact Hres|].
  split; [|split; [|split; [|split]]].
  - intros c Hc. apply Hsub, Hkept in Hc as [r [Hr [H4 ->]]].
    rewrite entry_score. split; [exact H4 | now exists r].
  - intros Hlen r Hr. split.
    + intros Hin. apply Hsub, Hkept in Hin as [r' [_ [H4 E]]].
      rewrite <- entry_score, E, entry_score. exact H4.
    + intros H4. rewrite Hres, List.firstn_all2.
      * apply (Permutation_in _ (Permutation_sym (sort_desc_perm _ kept))).
        apply Hkept. now exists r.
      * rewrite (Permutation_length (sort_desc_perm _ kept)).
        unfold kept. now rewrite List.length_map.
  - rewrite Hres. apply firstn_sorted, sort_desc_sorted.
  - intros k. rewrite Hres.
    rewrite <- (sort_desc_stable criticality_score k kept).
    apply firstn_filter_prefix.
  - rewrite Hres. apply List.firstn_le_length.
Qed.

(** C9. When the [try] block of [calculate_risk_score] raises, the result
    is score 0 with the level INDETERMINÉ, which is none of the three
    documented levels, and carries neither factors nor a recommendation;
    when the block returns, its result is the function's result, with a
    documented level and both fields; so the level is INDETERMINÉ exactly
    when the block raised, which happens exactly when some e-mail lacks
    its subject or body key. *)
Theorem risk_indeterminate (emails : list email_data) (sentiment_data : sentiment_data) :
  (forall e, risk_body emails sentiment_data = Raise e ->
     calculate_risk_score emails sentiment_data
     = {| score_risque := 0; niveau_risque := INDETERMINE;
          facteurs_risque := None; recommandation := None |}) /\
  (forall a, risk_body emails sentiment_data = Ok a ->
     calculate_risk_score emails sentiment_data = a /\
     documented_level (niveau_risque a) /\
     facteurs_risque a <> None /\ recommandation a <> None) /\
  ~ documented_level INDETERMINE /\
  (niveau_risque (calculate_risk_score emails sentiment_data) = INDETERMINE
   <-> exists e, risk_body emails sentiment_data = Raise e) /\
  ((exists e, risk_body emails sentiment_data = Raise e)
   <-> Exists (fun m => subject m = None \/ body m = None) emails).
Proof.
  assert (Hno : ~ documented_level INDETERMINE)
    by (unfold documented_level; intuition discriminate).
  split; [|split; [|split; [|split]]].
  - intros e He. unfold calculate_risk_score. now rewrite He.
  - intros a Ha. split; [unfold calculate_risk_score; now rewrite Ha|].
    now apply risk_body_level with (emails := emails) (sd := sentiment_data).
  - exact Hno.
  - unfold calculate_risk_score.
    destruct (risk_body emails sentiment_data) as [a|e] eqn:E.
    + split; [|intros [e He]; discriminate].
      intros Hl. exfalso. apply Hno. rewrite <- Hl.
      now apply (risk_body_level emails sentiment_data a).
    + split; [intros _; now exists e | reflexivity].
  - apply risk_body_raises.
Qed.

(** C10. The terms "urgent" and "critique" are in the risk lexicon with
    weight 3 and in the urgency list; a record whose lower-cased text
    contains one of them gets a criticality score of at least 8, carries
    both the bare flag and the flag prefixed by "urgent_", and is kept by
    the threshold of 4. *)
Theorem urgent_terms_counted_twice (r : EmailRecord) (term : str) :
  term = u "urgent" \/ term = u "critique" ->
  in_str term (record_text r) = true ->
  In (term, 3) risk_keywords /\ In term urgent_words /\
  8 <= fst (criticality (record_text r)) /\
  In term (snd (criticality (record_text r))) /\
  In (u "urgent_" ++ term) (snd (criticality (record_text r))) /\
  critical_entry (content r) = Ok (Some (entry_of r)) /\
  8 <= criticality_score (entry_of r) /\
  In term (flags (entry_of r)) /\ In (u "urgent_" ++ term) (flags (entry_of r)).
Proof.
  clear findall_email mean_round2. intros Hterm Hin.
  assert (Hrisk : In (term, 3) risk_keywords).
  { destruct Hterm as [-> | ->]; unfold risk_keywords; cbn [In]; tauto. }
  assert (Hurg : In term urgent_words).
  { destruct Hterm as [-> | ->]; unfold urgent_words; cbn [In]; tauto. }
  assert (H8 : 8 <= criticality_points (record_text r)).
  { unfold criticality_points.
    pose proof (risk_points_member _ _ _ Hrisk Hin).
    pose proof (hits_member _ _ _ Hurg Hin). lia. }
  assert (Hf1 : In term (snd (criticality (record_text r)))).
  { rewrite criticality_closed. cbn [snd]. apply List.in_or_app. left.
    apply List.filter_In. split; [|exact Hin].
    apply List.in_map_iff. now exists (term, 3). }
  assert (Hf2 : In (u "urgent_" ++ term) (snd (criticality (record_text r)))).
  { rewrite criticality_closed. cbn [snd]. apply List.in_or_app. right.
    apply List.in_map_iff. exists term. split; [reflexivity|].
    apply List.filter_In. tauto. }
  split; [exact Hrisk|]. split; [exact Hurg|].
  split; [rewrite criticality_closed; exact H8|].
  split; [exact Hf1|]. split; [exact Hf2|].
  split.
  { rewrite critical_entry_content. unfold critical.
    destruct (criticality_points (record_text r) >=? 4) eqn:E; [reflexivity | lia]. }
  split; [rewrite entry_score; exact H8|].
  split; [exact Hf1 | exact Hf2].
Qed.

(** C3, as the code has it. The sentiment loop skips exactly the records
    whose [subject + " " + body], cut at 512 characters, is made of
    whitespace only, and they do not count toward [emails_analysés]. When
    every record is skipped (or there is none) the summary is
    [{"emails_analysés": 0}], with no tally and no trend. Otherwise the
    summary counts as positive (negative) the entries whose label contains
    POSITIVE (NEGATIVE) and as neutral the rest, which for the basic
    scorer's labels are the exact per-label counts, and the trend is the
    side with the strictly greater count, Neutre on a tie. *)
Theorem sentiment_summary_tallies (self : analyzer) (records : list EmailRecord) :
  let sentiments := List.map (scored_entry self) (scored_records records) in
  let summary := analyze_sentiment self (List.map content records) in
  collect_sentiments self (List.map content records) = sentiments /\
  emails_analyses summary = Z.of_nat (length (scored_records records)) /\
  (scored_records records = [] -> stats summary = None) /\
  (scored_records records <> [] ->
   exists st,
     stats summary = Some st /\
     sentiment_positif st = count_label (u "POSITIVE") sentiments /\
     sentiment_negatif st = count_label (u "NEGATIVE") sentiments /\
     sentiment_neutre st
     = Z.of_nat (length sentiments) - sentiment_positif st - sentiment_negatif st /\
     (tendance st = Positive <-> sentiment_negatif st < sentiment_positif st) /\
     (tendance st = Negative <-> sentiment_positif st < sentiment_negatif st) /\
     (tendance st = Neutre <-> sentiment_positif st = sentiment_negatif st) /\
     (Forall (fun s => basic_label (sentiment s)) sentiments ->
      sentiment_positif st = exact_count (u "POSITIVE") sentiments /\
      sentiment_negatif st = exact_count (u "NEGATIVE") sentiments /\
      sentiment_neutre st = exact_count (u "NEUTRAL") sentiments)) /\
  (sentiment_available self = false \/ sentiment_analyzer self = None ->
   Forall (fun s => basic_label (sentiment s)) sentiments).
Proof.
  intros sentiments summary.
  assert (Hc : collect_sentiments self (List.map content records) = sentiments)
    by apply collect_sentiments_content.
  split; [exact Hc|].
  unfold summary, analyze_sentiment. rewrite Hc. clear Hc summary.
  assert (Hlen : length sentiments = length (scored_records records))
    by apply List.length_map.
  split; [|split; [|split]].
  - destruct sentiments; cbn [emails_analyses]; rewrite <- Hlen; reflexivity.
  - intros E. unfold sentiments. rewrite E. reflexivity.
  - intros Hne. destruct sentiments as [|s0 rest] eqn:Es.
    { destruct (scored_records records); [congruence | discriminate]. }
    rewrite <- Es. clear Es s0 rest Hne Hlen.
    eexists. split; [reflexivity|].
    cbn [sentiment_positif sentiment_negatif sentiment_neutre tendance].
    set (pos := count_label (u "POSITIVE") sentiments).
    set (neg := count_label (u "NEGATIVE") sentiments).
    split; [reflexivity|]. split; [reflexivity|]. split; [reflexivity|].
    split; [|split; [|split]].
    + destruct (pos >? neg) eqn:E1; [split; [lia | reflexivity]|].
      destruct (neg >? pos); split; (discriminate || lia).
    + destruct (pos >? neg) eqn:E1; [split; [discriminate | lia]|].
      destruct (neg >? pos) eqn:E2; split; (reflexivity || discriminate || lia).
    + destruct (pos >? neg) eqn:E1; [split; [discriminate | lia]|].
      destruct (neg >? pos) eqn:E2; split; (reflexivity || discriminate || lia).
    + intros Hall. exact (count_label_exact sentiments Hall).
  - intros Hbasic. unfold sentiments. apply List.Forall_forall. intros s Hs.
    apply List.in_map_iff in Hs as [r [<- _]].
    rewrite (scored_entry_basic self r Hbasic). apply basic_label_basic.
Qed.

(** C4. The basic scorer answers POSITIVE with confidence
    [0.6 + 0.1 * positive_hits] when the positive hits exceed the negative
    ones, NEGATIVE with [0.6 + 0.1 * negative_hits] in the opposite case
    and NEUTRAL with 0.5 when the two counts are equal; the confidence is
    not capped: from five hits on it exceeds 1.0, as it does for the text
    [five_praises], which lower-casing leaves as it is. *)
Theorem basic_scorer_confidence (text : str) :
  lower five_praises = five_praises ->
  let p := hits positive_keywords (lower text) in
  let n := hits negative_keywords (lower text) in
  let r := analyze_sentiment_basic text in
  ((n < p)%nat ->
   label r = u "POSITIVE" /\ score r = (0.6 + 0.1 * float_of_nat p)%float) /\
  ((p < n)%nat ->
   label r = u "NEGATIVE" /\ score r = (0.6 + 0.1 * float_of_nat n)%float) /\
  (p = n -> label r = u "NEUTRAL" /\ score r = 0.5%float) /\
  ((n < p)%nat -> (5 <= p)%nat -> PrimFloat.ltb 1 (score r) = true) /\
  (exists text', PrimFloat.ltb 1 (score (analyze_sentiment_basic text')) = true).
Proof.
  intros Hl p n r.
  assert (Hp : (p <= 11)%nat) by apply (hits_le positive_keywords).
  assert (Hn : (n <= 11)%nat) by apply (hits_le negative_keywords).
  destruct (float_tenths p Hp) as [Hpc Hp5].
  destruct (float_tenths n Hn) as [Hnc _].
  unfold r, analyze_sentiment_basic. fold p. fold n.
  split; [|split; [|split; [|split]]].
  - intros H. apply Nat.ltb_lt in H. rewrite H. cbn [label score].
    now rewrite Hpc.
  - intros H. assert ((n <? p)%nat = false) as -> by (apply Nat.ltb_ge; lia).
    apply Nat.ltb_lt in H. rewrite H. cbn [label score]. now rewrite Hnc.
  - intros H. rewrite H, Nat.ltb_irrefl. split; reflexivity.
  - intros H H5. apply Nat.ltb_lt in H. rewrite H. cbn [score]. now apply Hp5.
  - exists five_praises. unfold analyze_sentiment_basic. rewrite Hl.
    vm_compute. reflexivity.
Qed.


(** ** Further properties: the buckets of [search_project_emails] *)

Lemma extract_participants_content (r : EmailRecord) (ps : gset str) :
  extract_participants (content r) ps = (ps ∪ record_addresses r, Ok tt).
Proof.
  unfold extract_participants, record_addresses. cbn [content from to].
  destruct (r_from r), (r_to r); f_equal;
    rewrite ?(left_id_L ∅ (∪)), ?(right_id_L ∅ (∪)), ?(assoc_L (∪)); reflexivity.
Qed.

Lemma record_in_project_exact (r : EmailRecord) (project : str)
    (pd : gmap str bucket) :
  record_in_project (content r) project pd =
    (<[project :=
         {| emails := emails (default new_bucket (pd !! project)) ++ [content r];
            participants :=
              participants (default new_bucket (pd !! project)) ∪ record_addresses r;
            keywords := tally (record_text r)
                          (keywords (default new_bucket (pd !! project)));
            dates := dates (default new_bucket (pd !! project)) ++ [r_date r] |}]> pd,
     Ok tt).
Proof.
  unfold record_in_project. cbn [content date emails participants keywords dates].
  change (extract_participants
            {| subject := Some (r_subject r); from := Some (r_from r);
               to := Some (r_to r); date := Some (r_date r);
               body := Some (r_body r) |})
    with (extract_participants (content r)).
  rewrite extract_participants_content.
  unfold extract_keywords.
  change (search_text
            {| subject := Some (r_subject r); from := Some (r_from r);
               to := Some (r_to r); date := Some (r_date r);
               body := Some (r_body r) |})
    with (search_text (content r)).
  rewrite search_text_content. reflexivity.
Qed.

Lemma record_in_projects_lookup (r : EmailRecord) (ms : list str)
    (pd : gmap str bucket) (p : str) :
  match length (List.filter (fun f => bool_decide (f = p)) ms) with
  | O => fst (record_in_projects (content r) ms pd) !! p = pd !! p
  | S k =>
      exists b',
        fst (record_in_projects (content r) ms pd) !! p = Some b' /\
        grown r (S k) (default new_bucket (pd !! p)) b'
  end.
Proof.
  revert pd. induction ms as [|m ms IH]; intros pd; [reflexivity|].
  cbn [record_in_projects]. rewrite record_in_project_exact.
  set (b1 := {| emails := _; participants := _; keywords := _; dates := _ |}).
  specialize (IH (<[m := b1]> pd)).
  cbn [List.filter]. destruct (bool_decide (m = p)) eqn:E.
  - apply bool_decide_eq_true in E. subst m. cbn [length].
    rewrite lookup_insert_eq in IH.
    change (default new_bucket (Some b1)) with b1 in IH.
    destruct (length (List.filter (fun f => bool_decide (f = p)) ms)) as [|k].
    + exists b1. rewrite IH. split; [reflexivity|].
      unfold grown, b1. cbn [emails dates participants repeat]. auto.
    + destruct IH as [b' [Hb' (He & Hd & Hp)]]. exists b'. split; [exact Hb'|].
      unfold b1 in He, Hd, Hp. cbn [emails dates participants] in He, Hd, Hp.
      unfold grown. rewrite He, Hd, Hp, <- !app_assoc. cbn [repeat app].
      split; [reflexivity|]. split; [reflexivity|]. set_solver.
  - apply bool_decide_eq_false in E.
    rewrite lookup_insert_ne in IH by exact E. exact IH.
Qed.

Lemma stored_snoc (fs : list str) (p : str) (records : list EmailRecord)
    (r : EmailRecord) :
  stored fs p (records ++ [r]) = stored fs p records ++ repeat r (copies fs p r).
Proof. unfold stored. rewrite flat_map_app. cbn. now rewrite app_nil_r. Qed.

Lemma addresses_of_app (l1 l2 : list EmailRecord) :
  addresses_of (l1 ++ l2) = addresses_of l1 ∪ addresses_of l2.
Proof. unfold addresses_of. now rewrite List.map_app, union_list_app_L. Qed.

Lemma addresses_of_repeat (r : EmailRecord) (k : nat) :
  addresses_of (repeat r (S k)) = record_addresses r.
Proof.
  unfold addresses_of. induction k as [|k IH].
  - cbn [repeat List.map]. apply union_list_singleton_L.
  - change (repeat r (S (S k))) with (r :: repeat r (S k)).
    cbn [List.map]. rewrite union_list_cons, IH. apply (idemp_L (∪)).
Qed.

Lemma filled_process_email (fs : list str) (records : list EmailRecord)
    (pd : gmap str bucket) (r : EmailRecord) :
  filled fs records pd ->
  filled fs (records ++ [r]) (process_email fs pd (content r)).
Proof.
  intros Hpd p. specialize (Hpd p). rewrite stored_snoc.
  assert (Hstep : process_email fs pd (content r)
                  = fst (record_in_projects (content r)
                           (List.filter (fun f => matches f r) fs) pd)).
  { unfold process_email, check_project_relevance. rewrite search_text_content.
    cbn [bind]. fold (matches). unfold matches.
    destruct (List.filter _ fs); reflexivity. }
  rewrite Hstep.
  pose proof (record_in_projects_lookup r (List.filter (fun f => matches f r) fs) pd p)
    as Hl.
  fold (copies fs p r) in Hl. destruct (copies fs p r) as [|k].
  - rewrite Hl. cbn [repeat]. rewrite app_nil_r. exact Hpd.
  - destruct Hl as [b' [-> (He & Hd & Hp)]].
    rewrite !List.map_app, addresses_of_app, addresses_of_repeat, !List.map_repeat.
    split; [destruct (stored fs p records); discriminate|].
    destruct (pd !! p) as [b|]; cbn [from_option id] in He, Hd, Hp.
    + destruct Hpd as (_ & He0 & Hd0 & Hp0). now rewrite He, Hd, Hp, He0, Hd0, Hp0.
    + rewrite Hpd in *. cbn [new_bucket emails dates participants] in He, Hd, Hp.
      rewrite He, Hd, Hp. cbn [List.map app]. split; [reflexivity|].
      split; [reflexivity|]. unfold addresses_of. cbn [List.map].
      now rewrite union_list_nil.
Qed.

Lemma filled_search (fs : list str) (records : list EmailRecord) :
  filled fs records (search_project_emails fs (List.map content records)).
Proof.
  unfold search_project_emails.
  assert (H : forall done rest pd,
             filled fs done pd ->
             filled fs (done ++ rest)
               (fold_left (process_email fs) (List.map content rest) pd)).
  { intros done rest. revert done. induction rest as [|r rest IH]; intros done pd Hpd.
    - now rewrite app_nil_r.
    - cbn [List.map fold_left].
      replace (done ++ r :: rest) with ((done ++ [r]) ++ rest)
        by now rewrite <- app_assoc.
      apply IH. now apply filled_process_email. }
  apply (H [] records ∅). intros p. now rewrite lookup_empty.
Qed.

Lemma copies_nodup (fs : list str) (p : str) (r : EmailRecord) :
  NoDup fs ->
  copies fs p r = if matches p r && bool_decide (p ∈ fs) then 1%nat else 0%nat.
Proof.
  clear findall_email mean_round2.
  unfold copies. induction 1 as [|f fs Hf Hfs IH].
  - cbn. now rewrite andb_false_r.
  - cbn [List.filter].
    destruct (decide (f = p)) as [->|Hne].
    + rewrite (bool_decide_true (p ∈ p :: fs)) by apply list_elem_of_here.
      rewrite andb_true_r.
      assert (Hnot : bool_decide (p ∈ fs) = false)
        by (apply bool_decide_eq_false; exact Hf).
      rewrite Hnot, andb_false_r in IH.
      destruct (matches p r); [|exact IH].
      cbn [List.filter]. rewrite bool_decide_true by reflexivity.
      cbn [length]. now rewrite IH.
    + assert (Hin : bool_decide (p ∈ f :: fs) = bool_decide (p ∈ fs)).
      { apply bool_decide_ext. rewrite elem_of_cons. intuition congruence. }
      rewrite Hin. destruct (matches f r); [|exact IH].
      cbn [List.filter]. rewrite bool_decide_false by exact Hne. exact IH.
Qed.

Lemma stored_nodup (fs : list str) (p : str) (records : list EmailRecord) :
  NoDup fs ->
  stored fs p records
  = List.filter (fun r => matches p r && bool_decide (p ∈ fs)) records.
Proof.
  clear findall_email mean_round2.
  intros Hfs. unfold stored. induction records as [|r records IH]; [reflexivity|].
  cbn [flat_map List.filter]. rewrite IH, (copies_nodup fs p r Hfs).
  destruct (matches p r && bool_decide (p ∈ fs)); reflexivity.
Qed.

Lemma extract_participants_grows (e : email_data) (ps : gset str) :
  ps ⊆ fst (extract_participants e ps).
Proof.
  clear lower mean_round2. unfold extract_participants.
  destruct (from e) as [[|c f]|]; [| |set_solver];
    destruct (to e) as [[|c' t]|]; cbn [fst]; set_solver.
Qed.

(** Whatever the e-mail, one pass of the project loop appends it to the
    bucket of [project] and appends at most one date. *)
Lemma record_in_project_emails (e : email_data) (project : str)
    (pd : gmap str bucket) :
  exists b',
    fst (record_in_project e project pd) = <[project := b']> pd /\
    emails b' = emails (default new_bucket (pd !! project)) ++ [e] /\
    (dates b' = dates (default new_bucket (pd !! project)) \/
     exists d, dates b' = dates (default new_bucket (pd !! project)) ++ [d]).
Proof.
  unfold record_in_project.
  destruct (date e) as [d|]; [|eexists; split; [reflexivity|]; cbn [emails dates]; auto].
  destruct (extract_participants _ _) as [ps [[]|x]];
    cbn [participants keywords emails dates].
  - destruct (extract_keywords e _); cbn [fst];
      eexists; (split; [reflexivity|]); cbn [emails dates]; eauto.
  - eexists; split; [reflexivity|]; cbn [emails dates]; eauto.
Qed.

Lemma sound_record_in_projects (fs : list str) (fetched : list email_data)
    (e : email_data) (text : str) (ms : list str) (pd : gmap str bucket) :
  In e fetched -> search_text e = Ok text ->
  (forall m, In m ms -> In m fs /\ in_str (lower m) text = true) ->
  sound fs fetched pd -> sound fs fetched (fst (record_in_projects e ms pd)).
Proof.
  intros He Ht. revert pd. induction ms as [|m ms IH]; intros pd Hms Hpd; [exact Hpd|].
  cbn [record_in_projects].
  destruct (record_in_project_emails e m pd) as [b' [Hfst [Hem Hd]]].
  destruct (record_in_project e m pd) as [pd' res]. cbn [fst] in Hfst. subst pd'.
  assert (Hstep : sound fs fetched (<[m := b']> pd)).
  { intros p b Hb. destruct (decide (m = p)) as [->|Hne].
    - rewrite lookup_insert_eq in Hb. injection Hb as <-.
      destruct (Hms p (or_introl eq_refl)) as [Hp Hmatch].
      assert (Hold : (length (dates (default new_bucket (pd !! p)))
                      <= length (emails (default new_bucket (pd !! p))))%nat
                     /\ forall e0, In e0 (emails (default new_bucket (pd !! p))) ->
                          In e0 fetched /\
                          exists t, search_text e0 = Ok t /\ in_str (lower p) t = true).
      { destruct (pd !! p) as [b0|] eqn:E; cbn [from_option id].
        - destruct (Hpd p b0 E) as (_ & _ & Hl & Hall). auto.
        - cbn. split; [lia | tauto]. }
      destruct Hold as [Hl Hall].
      split; [exact Hp|]. split; [rewrite Hem; intros Hnil; apply List.app_eq_nil in Hnil as [_ Hnil];
              discriminate|].
      split.
      + rewrite Hem, List.length_app. cbn [length].
        destruct Hd as [-> | [d ->]]; [|rewrite List.length_app; cbn [length]]; lia.
      + intros e0. rewrite Hem, List.in_app_iff. intros [H0 | [<- | []]]; [auto|].
        split; [exact He | now exists text].
    - rewrite lookup_insert_ne in Hb by exact Hne. exact (Hpd p b Hb). }
  destruct res as [[]|x]; [|exact Hstep].
  apply IH; [|exact Hstep]. intros m' Hm'. apply Hms. now right.
Qed.

Lemma sound_search (fs : list str) (fetched : list email_data) :
  sound fs fetched (search_project_emails fs fetched).
Proof.
  unfold search_project_emails.
  assert (H : forall rest pd,
             (forall e, In e rest -> In e fetched) ->
             sound fs fetched pd ->
             sound fs fetched (fold_left (process_email fs) rest pd)).
  { induction rest as [|e rest IH]; intros pd Hin Hpd; [exact Hpd|].
    cbn [fold_left]. apply IH; [intros e' He'; apply Hin; now right|].
    unfold process_email.
    destruct (check_project_relevance e fs) as [[|m ms]|] eqn:Ec; try exact Hpd.
    unfold check_project_relevance in Ec.
    destruct (search_text e) as [text|] eqn:Et; cbn [bind] in Ec; [|discriminate].
    injection Ec as Ec.
    apply (sound_record_in_projects fs fetched e text); auto.
    - apply Hin. now left.
    - intros m' Hm'. rewrite <- Ec in Hm'. apply List.filter_In in Hm'. exact Hm'. }
  apply H; [auto|]. intros p b Hb. rewrite lookup_empty in Hb. discriminate.
Qed.

Lemma tally_positive (text : str) (kws : gmap str Z) :
  positive_counts kws -> positive_counts (tally text kws).
Proof.
  clear lower findall_email mean_round2.
  unfold tally. generalize project_keywords as L. intros L. revert kws.
  induction L as [|k L IH]; intros kws Hk; [exact Hk|].
  cbn [fold_left]. apply IH. destruct (in_str k text) eqn:E; [|exact Hk].
  intros term n. destruct (decide (k = term)) as [->|Hne].
  - rewrite lookup_insert_eq. intros [= <-].
    pose proof (count_present _ _ E).
    destruct (kws !! term) as [m|] eqn:Em; cbn [from_option id].
    + specialize (Hk term m Em). lia.
    + lia.
  - rewrite lookup_insert_ne by exact Hne. apply Hk.
Qed.

Lemma tally_lexicon (text : str) (kws : gmap str Z) :
  (forall term, ~ In term project_keywords -> kws !! term = None) ->
  forall term, ~ In term project_keywords -> tally text kws !! term = None.
Proof. intros H term Hn. rewrite tally_fresh by exact Hn. now apply H. Qed.

(** A property of tallies that holds of the empty one and is kept by
    [tally] holds in every bucket, whatever was fetched. *)
Lemma keywords_invariant (P : gmap str Z -> Prop) (fs : list str)
    (fetched : list email_data) :
  P ∅ -> (forall text kws, P kws -> P (tally text kws)) ->
  forall p b, search_project_emails fs fetched !! p = Some b -> P (keywords b).
Proof.
  intros Hempty Htally. unfold search_project_emails.
  assert (H0 : forall p b, (∅ : gmap str bucket) !! p = Some b -> P (keywords b))
    by (intros p b H; rewrite lookup_empty in H; discriminate).
  revert H0. generalize (∅ : gmap str bucket) as pd.
  induction fetched as [|e fetched IH]; intros pd Hpd; [exact Hpd|].
  cbn [fold_left]. apply IH. clear IH. unfold process_email.
  destruct (check_project_relevance e fs) as [[|m ms]|]; try exact Hpd.
  generalize (m :: ms) as projects. intros projects. revert pd Hpd.
  induction projects as [|q projects IHq]; intros pd Hpd; [exact Hpd|].
  cbn [record_in_projects].
  destruct (record_in_project_keywords e q pd) as [b' [Hfst Hk]].
  destruct (record_in_project e q pd) as [pd' res]. cbn [fst] in Hfst. subst pd'.
  assert (Hstep : forall p b, <[q := b']> pd !! p = Some b -> P (keywords b)).
  { intros p b Hb. destruct (decide (q = p)) as [->|Hne].
    - rewrite lookup_insert_eq in Hb. injection Hb as <-.
      assert (Hold : P (keywords (default new_bucket (pd !! p)))).
      { destruct (pd !! p) as [b0|] eqn:E; cbn [from_option id].
        - exact (Hpd p b0 E).
        - exact Hempty. }
      destruct Hk as [-> | [text ->]]; [exact Hold | now apply Htally].
    - rewrite lookup_insert_ne in Hb by exact Hne. exact (Hpd p b Hb). }
  destruct res as [[]|x]; [|exact Hstep]. now apply IHq.
Qed.

Lemma copies_positive (fs : list str) (p : str) (r : EmailRecord) :
  (0 < copies fs p r)%nat <-> In p fs /\ matches p r = true.
Proof.
  clear findall_email mean_round2.
  unfold copies. split.
  - intros H.
    destruct (List.filter (fun f => bool_decide (f = p)) _) as [|f l] eqn:E;
      [cbn in H; lia|].
    assert (Hf : In f (f :: l)) by now left.
    rewrite <- E in Hf. apply List.filter_In in Hf as [Hf Hfp].
    apply bool_decide_eq_true in Hfp. subst f.
    now apply List.filter_In in Hf.
  - intros [Hp Hm].
    assert (Hin : In p (List.filter (fun f => bool_decide (f = p))
                          (List.filter (fun f => matches f r) fs))).
    { apply List.filter_In. split; [now apply List.filter_In|].
      now apply bool_decide_eq_true. }
    destruct (List.filter (fun f => bool_decide (f = p)) _); [destruct Hin | cbn; lia].
Qed.

Lemma stored_nonempty (fs : list str) (p : str) (records : list EmailRecord) :
  stored fs p records <> [] <->
  In p fs /\ exists r, In r records /\ matches p r = true.
Proof.
  clear findall_email mean_round2.
  unfold stored. induction records as [|r records IH].
  - cbn. split; [congruence | intros [_ [r [[] _]]]].
  - cbn [flat_map]. split.
    + intros H. destruct (copies fs p r) as [|k] eqn:E.
      * cbn [repeat app] in H. apply IH in H as [Hp [r' [Hr' Hm]]].
        split; [exact Hp|]. exists r'. split; [now right | exact Hm].
      * assert (Hc : (0 < copies fs p r)%nat) by lia.
        apply copies_positive in Hc as [Hp Hm]. split; [exact Hp|].
        exists r. split; [now left | exact Hm].
    + intros [Hp [r' [[<- | Hr'] Hm]]].
      * assert (Hc : (0 < copies fs p r)%nat) by now apply copies_positive.
        destruct (copies fs p r); [lia | discriminate].
      * intros H. apply List.app_eq_nil in H as [_ H]. revert H. apply IH.
        split; [exact Hp|]. now exists r'.
Qed.

(** X1. After [search_project_emails] has processed records built by
    [extract_email_content], a project has a bucket exactly when the
    records it should hold are not none, and the bucket holds them in
    processing order, once for each time the project is listed among the
    matching filters, with their dates in the same order and the
    addresses found in their [from] and [to] fields; when no filter is
    listed twice these are the records that match the project. *)
Theorem bucket_contents (project_filters : list str) (records : list EmailRecord)
    (p : str) :
  match search_project_emails project_filters (List.map content records) !! p with
  | Some b =>
      stored project_filters p records <> [] /\
      emails b = List.map content (stored project_filters p records) /\
      dates b = List.map r_date (stored project_filters p records) /\
      participants b = addresses_of (stored project_filters p records)
  | None => stored project_filters p records = []
  end /\
  (NoDup project_filters ->
   stored project_filters p records
   = List.filter (fun r => matches p r && bool_decide (p ∈ project_filters)) records).
Proof.
  split; [apply filled_search | apply stored_nodup].
Qed.

(** X2. The mapping returned by [search_project_emails] has a key for a
    project exactly when the project is one of the filters and at least
    one record matches it; in particular it is empty when nothing was
    fetched. *)
Theorem bucket_exists_iff_matched (project_filters : list str)
    (records : list EmailRecord) (p : str) :
  (is_Some (search_project_emails project_filters (List.map content records) !! p)
   <-> In p project_filters /\ exists r, In r records /\ matches p r = true) /\
  search_project_emails project_filters [] = ∅.
Proof.
  split; [|reflexivity].
  rewrite <- stored_nonempty.
  pose proof (filled_search project_filters records p) as H.
  destruct (search_project_emails _ _ !! p) as [b|].
  - split; [intros _; apply H | intros _; now exists b].
  - split; [intros [b Hb]; discriminate | intros Hs; now destruct Hs].
Qed.

(** X3. Whatever dicts were fetched, also ones with missing keys, every
    key of the result is one of the filters, no bucket is empty or has
    more dates than e-mails, and every e-mail of a bucket was fetched and
    contains the lower-cased filter in its lower-cased text. *)
Theorem bucket_soundness (project_filters : list str) (fetched : list email_data)
    (p : str) (b : bucket) :
  search_project_emails project_filters fetched !! p = Some b ->
  In p project_filters /\ emails b <> [] /\
  (length (dates b) <= length (emails b))%nat /\
  forall e, In e (emails b) ->
    In e fetched /\
    exists text, search_text e = Ok text /\ substring (lower p) text.
Proof.
  intros Hb. destruct (sound_search project_filters fetched p b Hb) as (H1 & H2 & H3 & H4).
  split; [exact H1|]. split; [exact H2|]. split; [exact H3|].
  intros e He. destruct (H4 e He) as [Hf [text [Ht Hm]]].
  split; [exact Hf|]. exists text. split; [exact Ht | now apply in_str_spec].
Qed.

(** X4. The [try] of the loop does not undo what was done before an
    exception: a dict that matches a filter but has no ['date'] key is
    appended to the e-mails of the first matching project only, whose
    dates, participants and tallies stay as they were, and the other
    matching projects receive nothing. *)
Theorem missing_date_partial_update (project_filters : list str)
    (project_data : gmap str bucket) (e : email_data) (m : str) (ms : list str) :
  date e = None ->
  check_project_relevance e project_filters = Ok (m :: ms) ->
  process_email project_filters project_data e
  = <[m := {| emails := emails (default new_bucket (project_data !! m)) ++ [e];
              participants := participants (default new_bucket (project_data !! m));
              keywords := keywords (default new_bucket (project_data !! m));
              dates := dates (default new_bucket (project_data !! m)) |}]> project_data.
Proof.
  intros Hd Hc. unfold process_email. rewrite Hc.
  cbn [record_in_projects]. unfold record_in_project. rewrite Hd. reflexivity.
Qed.

(** X5. Whatever was fetched, a bucket's tally only has terms of the
    project lexicon and only counts of at least 1; for records built by
    [extract_email_content] a term has an entry exactly when it is in the
    lexicon and occurs in the text of some e-mail of the bucket. *)
Theorem keyword_entries (project_filters : list str) :
  (forall fetched p b term n,
     search_project_emails project_filters fetched !! p = Some b ->
     keywords b !! term = Some n ->
     In term project_keywords /\ 1 <= n) /\
  (forall records p b term,
     search_project_emails project_filters (List.map content records) !! p = Some b ->
     (is_Some (keywords b !! term) <->
      In term project_keywords /\
      exists r, In (content r) (emails b) /\ substring term (record_text r))).
Proof.
  assert (Hgen : forall fetched p b term n,
     search_project_emails project_filters fetched !! p = Some b ->
     keywords b !! term = Some n ->
     In term project_keywords /\ 1 <= n).
  { intros fetched p b term n Hb Hn.
    pose proof (keywords_invariant
                  (fun kws => positive_counts kws /\
                              forall t, ~ In t project_keywords -> kws !! t = None)
                  project_filters fetched) as Hinv.
    destruct (Hinv) with (p := p) (b := b) as [Hpos Hlex]; [| |exact Hb|].
    - split; [intros t k Hk; rewrite lookup_empty in Hk; discriminate|].
      intros t _. apply lookup_empty.
    - intros text kws [H1 H2]. split; [now apply tally_positive|].
      now apply tally_lexicon.
    - split; [|exact (Hpos term n Hn)].
      destruct (decide (term ∈ project_keywords)) as [Hin|Hout];
        [now apply list_elem_of_In|].
      rewrite Hlex in Hn; [discriminate|]. intros H. apply Hout.
      now apply list_elem_of_In. }
  split; [exact Hgen|].
  intros records p b term Hb.
  destruct (tallied_search project_filters records p b Hb term) as [Hyes Hno].
  pose proof (filled_search project_filters records p) as Hfill.
  rewrite Hb in Hfill. destruct Hfill as (_ & Hem & _).
  split.
  - intros [n Hn]. destruct (Hgen _ _ _ _ _ Hb Hn) as [Hin H1].
    split; [exact Hin|]. specialize (Hyes Hin). rewrite Hn in Hyes. cbn in Hyes.
    assert (Hex : exists e, In e (emails b) /\ 0 < term_count term e).
    { clear -Hyes H1. induction (emails b) as [|e l IH].
      - cbn in Hyes. lia.
      - rewrite List.map_cons, zsum_cons in Hyes.
        destruct (Z.ltb_spec 0 (term_count term e)).
        + exists e. split; [now left | assumption].
        + assert (Hc : 0 <= term_count term e).
          { unfold term_count. destruct (search_text e); [apply count_nonneg | lia]. }
          destruct (Z.ltb_spec 0 (zsum (List.map (term_count term) l))) as [Hp|Hp].
          * assert (Hl : exists e0, In e0 l /\ 0 < term_count term e0).
            { clear -Hp. induction l as [|e0 l IHl]; [cbn in Hp; lia|].
              rewrite List.map_cons, zsum_cons in Hp.
              destruct (Z.ltb_spec 0 (term_count term e0)).
              - exists e0. split; [now left | assumption].
              - assert (0 <= term_count term e0).
                { unfold term_count. destruct (search_text e0);
                    [apply count_nonneg | lia]. }
                destruct IHl as [e1 [H1 H2]]; [lia|].
                exists e1. split; [now right | assumption]. }
            destruct Hl as [e0 [H0 H2]]. exists e0. split; [now right | assumption].
          * lia. }
    destruct Hex as [e [He Hpos]].
    rewrite Hem in He. apply List.in_map_iff in He as [r [<- Hr]].
    exists r. split; [rewrite Hem; apply List.in_map_iff; now exists r|].
    apply in_str_spec. unfold term_count in Hpos. rewrite search_text_content in Hpos.
    destruct (in_str term (record_text r)) eqn:E; [reflexivity|].
    rewrite (count_absent _ _ E) in Hpos. lia.
  - intros [Hin [r [Hr Hs]]]. specialize (Hyes Hin).
    apply in_str_spec in Hs. pose proof (count_present _ _ Hs) as Hc.
    assert (Hsum : 0 < zsum (List.map (term_count term) (emails b))).
    { assert (Hcr : term_count term (content r) = count term (record_text r))
        by reflexivity.
      assert (Hall : Forall (fun x => 0 <= x) (List.map (term_count term) (emails b))).
      { apply List.Forall_forall. intros x Hx.
        apply List.in_map_iff in Hx as [e [<- _]]. unfold term_count.
        destruct (search_text e); [apply count_nonneg | lia]. }
      pose proof (zsum_member _ (term_count term (content r)) Hall) as Hm.
      rewrite Hcr in Hm. specialize (Hm (List.in_map _ _ _ Hr)). lia. }
    destruct (keywords b !! term) as [n|]; [now exists n|].
    cbn in Hyes. lia.
Qed.

(** X6. [extract_participants] only adds to the set it is given, running
    it again on its own result changes nothing, and it raises exactly
    when the ['from'] or the ['to'] key is missing; when only ['to'] is
    missing the addresses of ['from'] have already been added. *)
Theorem extract_participants_idempotent (e : email_data) (participants : gset str) :
  participants ⊆ fst (extract_participants e participants) /\
  extract_participants e (fst (extract_participants e participants))
  = extract_participants e participants /\
  (snd (extract_participants e participants) = Ok tt
   <-> from e <> None /\ to e <> None) /\
  (forall f, from e = Some f -> f <> [] -> to e = None ->
     extract_participants e participants
     = (participants ∪ list_to_set (findall_email f), Raise (KeyError (u "to")))).
Proof.
  clear lower mean_round2.
  split; [apply extract_participants_grows|].
  unfold extract_participants.
  split; [|split].
  - destruct (from e) as [[|c f]|]; [| |reflexivity];
      destruct (to e) as [[|c' t]|]; cbn [fst]; f_equal; set_solver.
  - destruct (from e) as [f|]; [|cbn [snd]; split; [discriminate | tauto]].
    destruct (to e) as [t|]; cbn [snd].
    + split; [intros _; split; discriminate | reflexivity].
    + split; [discriminate | tauto].
  - intros f -> Hf ->. destruct f; [congruence | reflexivity].
Qed.

(** ** Further properties: the two variants of the search loop *)

Lemma record_in_project_erase (e : email_data) (text : str) (p : str)
    (pd : gmap str bucket) :
  search_text e = Ok text ->
  record_in_project_2 e p (without_keywords <$> pd)
  = (without_keywords <$> fst (record_in_project e p pd),
     snd (record_in_project e p pd)).
Proof.
  intros Ht. unfold record_in_project, record_in_project_2.
  rewrite lookup_fmap.
  assert (Hb : default new_bucket (without_keywords <$> pd !! p)
               = without_keywords (default new_bucket (pd !! p)))
    by (destruct (pd !! p); reflexivity).
  rewrite Hb. generalize (default new_bucket (pd !! p)) as b. intros b.
  cbn [without_keywords emails participants keywords dates].
  destruct (date e) as [d|]; cbn [fst snd].
  - destruct (extract_participants e (participants b)) as [ps r].
    unfold extract_keywords. rewrite Ht. cbn [bind].
    destruct r as [[]|x]; cbn [fst snd]; now rewrite fmap_insert.
  - now rewrite fmap_insert.
Qed.

Lemma record_in_projects_erase (e : email_data) (text : str) (ms : list str)
    (pd : gmap str bucket) :
  search_text e = Ok text ->
  fst (record_in_projects_2 e ms (without_keywords <$> pd))
  = without_keywords <$> fst (record_in_projects e ms pd).
Proof.
  intros Ht. revert pd. induction ms as [|m ms IH]; intros pd; [reflexivity|].
  cbn [record_in_projects record_in_projects_2].
  rewrite (record_in_project_erase e text m pd Ht).
  destruct (record_in_project e m pd) as [pd' [[]|x]]; cbn [fst snd];
    [apply IH | reflexivity].
Qed.

(** X7. The loop of [search_project_emails] in
    [email_project_analyzer_2.py] builds, for every filter list and every
    list of fetched dicts, the buckets of the loop in
    [email_project_analyzer.py] with the keyword tallies left empty. *)
Theorem search_variants_agree (project_filters : list str) (fetched : list email_data) :
  search_project_emails_2 project_filters fetched
  = without_keywords <$> search_project_emails project_filters fetched.
Proof.
  unfold search_project_emails_2, search_project_emails.
  assert (H : forall pd,
             fold_left (process_email_2 project_filters) fetched (without_keywords <$> pd)
             = without_keywords <$> fold_left (process_email project_filters) fetched pd).
  { induction fetched as [|e fetched IH]; intros pd; [reflexivity|].
    cbn [fold_left]. rewrite <- IH. f_equal.
    unfold process_email_2, process_email.
    destruct (check_project_relevance e project_filters) as [ms|x] eqn:Ec;
      [|reflexivity].
    unfold check_project_relevance in Ec.
    destruct (search_text e) as [text|] eqn:Et; cbn [bind] in Ec; [|discriminate].
    rewrite (record_in_projects_erase e text ms pd Et).
    destruct ms; reflexivity. }
  rewrite <- H. now rewrite fmap_empty.
Qed.

(** ** Further properties: sentiment, ranking and risk *)

Lemma sentiment_entry_incomplete (self : analyzer) (e : email_data) :
  has_sentiment_keys e = false ->
  forall r, sentiment_entry self e <> Ok (Some r).
Proof.
  unfold has_sentiment_keys, sentiment_entry, subject_body, ml_entry, basic_entry.
  intros H r.
  destruct (subject e) as [s|]; cbn [bind getitem]; [|discriminate].
  destruct (body e) as [b|]; cbn [bind getitem]; [|discriminate].
  destruct (date e) as [d|]; [discriminate|].
  destruct (strip _); [discriminate|].
  destruct (sentiment_available self); [|cbn [bind getitem]; discriminate].
  destruct (sentiment_analyzer self) as [model|]; [|cbn [bind getitem]; discriminate].
  destruct (model _); cbn [bind getitem]; discriminate.
Qed.

Lemma collect_sentiments_complete (self : analyzer) (emails : list email_data) :
  collect_sentiments self emails
  = collect_sentiments self (List.filter has_sentiment_keys emails).
Proof.
  induction emails as [|e emails IH]; [reflexivity|].
  cbn [collect_sentiments List.filter].
  destruct (has_sentiment_keys e) eqn:E.
  - cbn [collect_sentiments]. now rewrite IH.
  - pose proof (sentiment_entry_incomplete self e E) as H.
    destruct (sentiment_entry self e) as [[r|]|x]; [now destruct (H r) | exact IH..].
Qed.

(** X8. [analyze_sentiment] ignores the dicts that lack the subject, the
    body or the date key: its summary is the one of the list without
    them. *)
Theorem sentiment_ignores_incomplete (self : analyzer) (emails : list email_data) :
  analyze_sentiment self emails
  = analyze_sentiment self (List.filter has_sentiment_keys emails).
Proof.
  unfold analyze_sentiment. now rewrite <- collect_sentiments_complete.
Qed.

Lemma last_n_map {A B} (f : A -> B) (k : nat) (l : list A) :
  last_n k (List.map f l) = List.map f (last_n k l).
Proof. unfold last_n. now rewrite List.length_map, List.skipn_map. Qed.

Lemma last_n_length {A} (k : nat) (l : list A) :
  length (last_n k l) = Nat.min k (length l).
Proof. unfold last_n. rewrite List.length_skipn. lia. Qed.

(** X9. When at least one record is scored, the three tallies of the
    summary add up to [emails_analysés], [détails] holds the entries of
    the last three scored records (of all of them when there are fewer),
    and [méthode] follows the availability flag alone: it reads ML also
    when the pipeline is missing or fails and every entry was produced by
    the basic scorer. *)
Theorem sentiment_summary_details (self : analyzer) (records : list EmailRecord)
    (st : sentiment_stats) :
  stats (analyze_sentiment self (List.map content records)) = Some st ->
  sentiment_positif st + sentiment_negatif st + sentiment_neutre st
  = emails_analyses (analyze_sentiment self (List.map content records)) /\
  details st = List.map (scored_entry self) (last_n 3 (scored_records records)) /\
  length (details st) = Nat.min 3 (length (scored_records records)) /\
  (methode st = SummaryML <-> sentiment_available self = true) /\
  (sentiment_analyzer self = None ->
   Forall (fun s => method s = Basic) (details st)).
Proof.
  unfold analyze_sentiment. rewrite collect_sentiments_content.
  destruct (List.map (scored_entry self) (scored_records records)) as [|s0 l] eqn:E;
    [discriminate|].
  rewrite <- E. clear E s0 l. intros [= <-].
  cbn [sentiment_positif sentiment_negatif sentiment_neutre details methode
       emails_analyses].
  split; [lia|]. split; [apply last_n_map|].
  split; [now rewrite last_n_map, List.length_map, last_n_length|].
  split.
  - destruct (sentiment_available self); split; (reflexivity || discriminate).
  - intros Hnone. rewrite last_n_map. apply List.Forall_forall. intros s Hs.
    apply List.in_map_iff in Hs as [r [<- _]].
    now rewrite (scored_entry_basic self r (or_intror Hnone)).
Qed.

Lemma critical_entry_some (e : email_data) (c : critical_email) :
  critical_entry e = Ok (Some c) ->
  has_entry_keys e = true /\
  exists text b,
    search_text e = Ok text /\ body e = Some b /\
    criticality_score c = criticality_points text /\
    4 <= criticality_points text /\
    flags c = snd (criticality text) /\
    preview c = (if (150 <? length b)%nat then firstn 150 b ++ u "..." else b).
Proof.
  unfold critical_entry, has_entry_keys, search_text, subject_body.
  destruct (subject e) as [s|]; cbn [bind getitem]; [|discriminate].
  destruct (body e) as [b|]; cbn [bind getitem]; [|discriminate].
  rewrite criticality_closed.
  destruct (criticality_points _ >=? 4) eqn:E4; [|discriminate].
  destruct (from e) as [f|]; cbn [bind getitem]; [|discriminate].
  destruct (date e) as [d|]; cbn [bind getitem]; [|discriminate].
  intros H.
  apply (f_equal (fun x => match x with Ok (Some y) => y | _ => c end)) in H.
  cbn beta iota in H. subst c. split; [reflexivity|].
  eexists _, b. split; [reflexivity|]. split; [reflexivity|].
  cbn [criticality_score flags preview snd].
  split; [reflexivity|]. split; [lia|].
  split; [now rewrite criticality_closed | reflexivity].
Qed.

Lemma collect_critical_In (emails : list email_data) (c : critical_email) :
  In c (collect_critical emails) ->
  exists e, In e emails /\ critical_entry e = Ok (Some c).
Proof.
  induction emails as [|e emails IH]; [intros []|].
  cbn [collect_critical].
  destruct (critical_entry e) as [[c'|]|x] eqn:E.
  - intros [<- | H]; [exists e; split; [now left | exact E]|].
    destruct (IH H) as [e' [He' Hc]]. exists e'. split; [now right | exact Hc].
  - intros H. destruct (IH H) as [e' [He' Hc]]. exists e'. split; [now right | exact Hc].
  - intros H. destruct (IH H) as [e' [He' Hc]]. exists e'. split; [now right | exact Hc].
Qed.

Lemma collect_critical_complete (emails : list email_data) :
  collect_critical emails = collect_critical (List.filter has_entry_keys emails).
Proof.
  induction emails as [|e emails IH]; [reflexivity|].
  cbn [collect_critical List.filter].
  destruct (has_entry_keys e) eqn:E.
  - cbn [collect_critical]. now rewrite IH.
  - destruct (critical_entry e) as [[c|]|x] eqn:Ec; [|exact IH..].
    apply critical_entry_some in Ec as [Hk _]. congruence.
Qed.

(** X10. [identify_critical_emails] ignores the dicts that lack the
    subject, from, date or body key, and the records that score below 4:
    the result is the one of the list without them. *)
Theorem critical_ignores_others (emails : list email_data)
    (records : list EmailRecord) :
  identify_critical_emails emails
  = identify_critical_emails (List.filter has_entry_keys emails) /\
  identify_critical_emails (List.map content records)
  = identify_critical_emails (List.map content (List.filter critical records)).
Proof.
  unfold identify_critical_emails. split.
  - now rewrite <- collect_critical_complete.
  - rewrite !collect_critical_content. do 3 f_equal.
    induction records as [|r records IH]; [reflexivity|].
    cbn [List.filter]. destruct (critical r) eqn:E; [|exact IH].
    cbn [List.filter]. rewrite E. f_equal. exact IH.
Qed.

Lemma weighted_hits_bound (text : str) (L : list (str * Z)) :
  Forall (fun kw : str * Z => 0 <= snd kw) L ->
  zsum (List.map (fun kw : str * Z => if in_str (fst kw) text then snd kw else 0) L)
  <= zsum (List.map snd L).
Proof.
  clear lower findall_email mean_round2.
  induction 1 as [|kw L Hkw HL IH]; [cbn; lia|].
  cbn [List.map]. rewrite !zsum_cons. destruct (in_str (fst kw) text); lia.
Qed.

Lemma weighted_hits_none (text : str) (L : list (str * Z)) :
  List.filter (fun k => in_str k text) (List.map fst L) = [] ->
  zsum (List.map (fun kw : str * Z => if in_str (fst kw) text then snd kw else 0) L) = 0.
Proof.
  clear lower findall_email mean_round2.
  induction L as [|kw L IH]; [reflexivity|].
  cbn [List.map List.filter]. rewrite zsum_cons.
  destruct (in_str (fst kw) text); [discriminate|]. intros H. rewrite (IH H). lia.
Qed.

Lemma criticality_points_bound (text : str) : criticality_points text <= 59.
Proof.
  clear lower findall_email mean_round2.
  unfold criticality_points.
  pose proof (weighted_hits_bound text risk_keywords risk_weights_nonneg) as H1.
  change (zsum (List.map snd risk_keywords)) with 34 in H1.
  pose proof (hits_le urgent_words text) as H2.
  change (length urgent_words) with 5%nat in H2. lia.
Qed.

(** X11. Every entry returned by [identify_critical_emails], whatever
    the input, has a score between 4 and 59, at least one flag, and a
    preview of at most 153 characters. *)
Theorem critical_entry_bounds (emails : list email_data) (c : critical_email) :
  In c (identify_critical_emails emails) ->
  4 <= criticality_score c <= 59 /\
  flags c <> [] /\
  (length (preview c) <= 153)%nat.
Proof.
  intros Hc. unfold identify_critical_emails in Hc. apply in_firstn in Hc.
  apply (Permutation_in _ (sort_desc_perm criticality_score _)) in Hc.
  apply collect_critical_In in Hc as [e [_ He]].
  apply critical_entry_some in He as [_ [text [b (_ & _ & Hs & H4 & Hf & Hp)]]].
  pose proof (criticality_points_bound text) as H59.
  split; [lia|]. split.
  - rewrite Hf, criticality_closed. cbn [snd]. intros Hnil.
    apply List.app_eq_nil in Hnil as [Hr Hu].
    apply (f_equal (@length str)) in Hu. rewrite List.length_map in Hu.
    pose proof (weighted_hits_none text risk_keywords Hr) as Hz.
    unfold criticality_points, hits in H4. rewrite Hz in H4. cbn [length] in Hu.
    lia.
  - rewrite Hp. destruct (150 <? length b)%nat eqn:E.
    + rewrite List.length_app, List.length_firstn.
      change (length (u "...")) with 3%nat. lia.
    + apply Nat.ltb_ge in E. lia.
Qed.

(** X12. The confidence of the basic scorer is 0.5 exactly for the label
    NEUTRAL, at least 0.7 for the two other labels, and never above
    0.6 + 11 * 0.1, the value for a text with every term of a lexicon. *)
Theorem basic_confidence_range (text : str) :
  PrimFloat.leb 0.5 (score (analyze_sentiment_basic text)) = true /\
  PrimFloat.leb (score (analyze_sentiment_basic text)) 1.7000000000000002 = true /\
  (label (analyze_sentiment_basic text) = u "NEUTRAL" <->
   score (analyze_sentiment_basic text) = 0.5%float) /\
  (label (analyze_sentiment_basic text) <> u "NEUTRAL" ->
   PrimFloat.leb 0.7 (score (analyze_sentiment_basic text)) = true).
Proof.
  clear findall_email mean_round2.
  assert (Hrange : forall n, (1 <= n <= 11)%nat ->
            PrimFloat.leb 0.5 (0.6 + float_of_nat n * 0.1) = true /\
            PrimFloat.leb (0.6 + float_of_nat n * 0.1) 1.7000000000000002 = true /\
            PrimFloat.leb 0.7 (0.6 + float_of_nat n * 0.1) = true /\
            (0.6 + float_of_nat n * 0.1)%float <> 0.5%float).
  { intros n Hn. destruct n as [|n]; [lia|].
    do 11 (destruct n as [|n];
           [repeat split; try (vm_compute; reflexivity);
            intros Hc; apply (f_equal (PrimFloat.leb 0.7)) in Hc;
            vm_compute in Hc; discriminate Hc|]).
    lia. }
  pose proof (hits_le positive_keywords (lower text)) as Hp.
  pose proof (hits_le negative_keywords (lower text)) as Hn.
  change (length positive_keywords) with 11%nat in Hp.
  change (length negative_keywords) with 11%nat in Hn.
  unfold analyze_sentiment_basic.
  destruct (Nat.ltb_spec (hits negative_keywords (lower text))
              (hits positive_keywords (lower text))) as [H1|H1].
  - cbn [label score].
    destruct (Hrange (hits positive_keywords (lower text))) as (A & B & C & D); [lia|].
    split; [exact A|]. split; [exact B|]. split; [|intros _; exact C].
    split; [intros Hl; vm_compute in Hl; discriminate Hl | intros Hs; now destruct D].
  - destruct (Nat.ltb_spec (hits positive_keywords (lower text))
                (hits negative_keywords (lower text))) as [H2|H2].
    + cbn [label score].
      destruct (Hrange (hits negative_keywords (lower text))) as (A & B & C & D); [lia|].
      split; [exact A|]. split; [exact B|]. split; [|intros _; exact C].
      split; [intros Hl; vm_compute in Hl; discriminate Hl | intros Hs; now destruct D].
    + cbn [label score]. split; [vm_compute; reflexivity|].
      split; [vm_compute; reflexivity|]. split; [tauto|]. intros H. now destruct H.
Qed.

(** X13. For records built by [extract_email_content] the risk factors
    are, in this order: the sentiment factor when the trend is negative,
    the keyword factor with the number of (record, risk term) hits when
    there is at least one, and the volume factor for more than 50 records
    or else the low-activity factor for fewer than 3; the recommendation
    is the one of the level; and the hit counter is at most 15 per
    record. *)
Theorem risk_factors_closed (records : list EmailRecord)
    (sentiment_data : sentiment_data) :
  let a := calculate_risk_score (List.map content records) sentiment_data in
  facteurs_risque a
  = Some ((match get_tendance sentiment_data with
           | Some Negative => [SentimentNegatif] | _ => [] end)
          ++ (if risk_hits records >? 0 then [RiskKeywords (risk_hits records)] else [])
          ++ (if Z.of_nat (length records) >? 50 then [VolumeEleve]
              else if Z.of_nat (length records) <? 3 then [ActiviteFaible] else [])) /\
  recommandation a = Some (get_recommendation (niveau_risque a)) /\
  0 <= risk_hits records <= 15 * Z.of_nat (length records).
Proof.
  intros a. subst a. split; [|split].
  - unfold calculate_risk_score, risk_body. rewrite List.length_map.
    destruct (get_tendance sentiment_data) as [[]|];
      rewrite risk_keyword_loop_content; cbn [bind];
      rewrite ?Z.add_0_l;
      destruct (risk_hits records >? 0);
      destruct (Z.of_nat (length records) >? 50);
      destruct (Z.of_nat (length records) <? 3);
      reflexivity.
  - unfold calculate_risk_score, risk_body. rewrite List.length_map.
    destruct (get_tendance sentiment_data) as [[]|];
      rewrite risk_keyword_loop_content; cbn [bind];
      destruct (Z.of_nat (length records) >? 50);
      destruct (Z.of_nat (length records) <? 3);
      reflexivity.
  - unfold risk_hits. induction records as [|r records IH]; [cbn; lia|].
    cbn [List.map]. rewrite zsum_cons.
    pose proof (hits_le (List.map fst risk_keywords) (record_text r)) as H.
    change (length (List.map fst risk_keywords)) with 15%nat in H.
    change (length (r :: records)) with (S (length records)). lia.
Qed.

(** ** Further properties: the summaries *)

Lemma last_n_idem {A} (k : nat) (l : list A) : last_n k (last_n k l) = last_n k l.
Proof.
  unfold last_n. rewrite List.length_skipn.
  replace (length l - (length l - k) - k)%nat with 0%nat by lia. reflexivity.
Qed.

Lemma key_sentences_loop_raises (recent : list email_data) (ks : list str) :
  (exists x, key_sentences_loop recent ks = Raise x)
  <-> Exists (fun m => has_text_keys m = false) recent.
Proof.
  revert ks. induction recent as [|m recent IH]; intros ks.
  - cbn. split; [intros [x Hx]; discriminate | intros H; inversion H].
  - cbn [key_sentences_loop]. unfold has_text_keys at 1.
    destruct (subject m) as [s|] eqn:Es; cbn [bind getitem].
    + destruct (body m) as [b|] eqn:Eb; cbn [bind getitem].
      * rewrite IH. split; [intros H; now right|].
        intros H. inversion H as [? ? Hm|]; subst; [|assumption].
        unfold has_text_keys in Hm. rewrite Es, Eb in Hm. discriminate.
      * split; [intros _; left; unfold has_text_keys; now rewrite Es, Eb
               | intros _; eexists; reflexivity].
    + split; [intros _; left; unfold has_text_keys; now rewrite Es
             | intros _; eexists; reflexivity].
Qed.

(** X14. [generate_basic_summary] reads the last three dicts only: its
    result is the one for those three, it raises exactly when one of them
    lacks the subject or the body key, and otherwise it returns a basic
    summary of at most 303 characters that reports
    [min(3, len(emails))] analysed e-mails. *)
Theorem basic_summary_bounds (emails : list email_data) :
  generate_basic_summary emails = generate_basic_summary (last_n 3 emails) /\
  ((exists x, generate_basic_summary emails = Raise x)
   <-> Exists (fun m => has_text_keys m = false) (last_n 3 emails)) /\
  (forall s, generate_basic_summary emails = Ok s ->
     exists resume,
       s = BasicSummary resume (Nat.min 3 (length emails)) /\
       (length resume <= 303)%nat).
Proof.
  split; [|split].
  - unfold generate_basic_summary. now rewrite last_n_idem.
  - unfold generate_basic_summary.
    rewrite <- (key_sentences_loop_raises (last_n 3 emails) []).
    destruct (key_sentences_loop (last_n 3 emails) []) as [ks|x]; cbn [bind].
    + split; intros [x Hx]; discriminate.
    + split; intros _; eexists; reflexivity.
  - intros s. unfold generate_basic_summary.
    destruct (key_sentences_loop (last_n 3 emails) []) as [ks|x]; cbn [bind];
      [|discriminate].
    intros [= <-]. eexists. rewrite last_n_length. split; [reflexivity|].
    destruct (300 <? length (join (u ". ") (firstn 5 ks)))%nat eqn:E.
    + rewrite List.length_app, List.length_firstn.
      change (length (u "...")) with 3%nat. lia.
    + apply Nat.ltb_ge in E. lia.
Qed.

Lemma key_sentences_loop_content (records : list EmailRecord) (ks : list str) :
  exists ks', key_sentences_loop (List.map content records) ks = Ok ks'.
Proof.
  revert ks. induction records as [|r records IH]; intros ks; [now exists ks|].
  cbn [List.map key_sentences_loop content subject body bind getitem]. apply IH.
Qed.

Lemma combine_texts_content (records : list EmailRecord) (acc : str) :
  combine_texts (List.map content records) acc
  = Ok (acc ++ concat (List.map (fun r => (r_subject r ++ u ". " ++ r_body r) ++ u " ")
                         records)).
Proof.
  revert acc. induction records as [|r records IH]; intros acc.
  - cbn. now rewrite app_nil_r.
  - cbn [List.map combine_texts content subject body bind getitem concat].
    rewrite IH. now rewrite <- app_assoc.
Qed.

(** X15. [generate_auto_summary] answers "no e-mails" exactly for the
    empty list. When the summarizer is absent or the ML block raises, the
    result is the one of [generate_basic_summary] (or the error dict when
    that raises too). For records built by [extract_email_content] the
    result is never an error, and when the summarizer is present but the
    combined text of the last three records has fewer than 50 characters
    once stripped, the result is "insufficient content": the model is not
    consulted and the basic summary is not used. *)
Theorem auto_summary_fallback (self : summarizer_state) (emails : list email_data) :
  (generate_auto_summary self emails = NoEmails <-> emails = []) /\
  (emails <> [] ->
   summarizer_available self = false \/ summarizer self = None \/
   (exists model x, summarizer self = Some model /\
                    ml_summary self model emails = Raise x) ->
   generate_auto_summary self emails
   = match generate_basic_summary emails with
     | Ok r => r
     | Raise e => SummaryFailed e
     end) /\
  (forall records e,
     generate_auto_summary self (List.map content records) <> SummaryFailed e) /\
  (forall records model,
     records <> [] ->
     summarizer_available self = true -> summarizer self = Some model ->
     (length (strip (combined_text records)) < 50)%nat ->
     generate_auto_summary self (List.map content records) = Insufficient).
Proof.
  assert (Hbasic : forall l, match generate_basic_summary l with
                             | Ok r => r
                             | Raise e => SummaryFailed e
                             end <> NoEmails).
  { intros l. unfold generate_basic_summary.
    destruct (key_sentences_loop _ _); cbn [bind]; discriminate. }
  assert (Hml : forall model l r, ml_summary self model l = Ok r ->
                  r = Insufficient \/ exists t n c, r = MLSummary t n c).
  { intros model l r. unfold ml_summary.
    destruct (combine_texts _ _) as [ct|]; cbn [bind]; [|discriminate].
    destruct (_ <? 50)%nat; [intros [= <-]; now left|].
    destruct (model _); cbn [bind]; [|discriminate].
    intros [= <-]. right. eauto. }
  split; [|split; [|split]].
  - split; [|intros ->; reflexivity].
    destruct emails as [|e0 emails]; [reflexivity|].
    unfold generate_auto_summary. intros H. exfalso. revert H.
    destruct (summarizer_available self); [|apply Hbasic].
    destruct (summarizer self) as [model|]; [|apply Hbasic].
    destruct (ml_summary self model (e0 :: emails)) as [r|x] eqn:E; [|apply Hbasic].
    destruct (Hml _ _ _ E) as [-> | [t [n [c ->]]]]; discriminate.
  - intros Hne H. destruct emails as [|e0 emails]; [congruence|].
    unfold generate_auto_summary.
    destruct H as [-> | [-> | [model [x [-> ->]]]]]; try reflexivity;
      destruct (summarizer_available self); reflexivity.
  - intros records e. destruct records as [|r records]; [discriminate|].
    assert (Hok : match generate_basic_summary (List.map content (r :: records)) with
                  | Ok r => r
                  | Raise e => SummaryFailed e
                  end <> SummaryFailed e).
    { unfold generate_basic_summary.
      assert (Hl : exists l, last_n 3 (List.map content (r :: records))
                             = List.map content l)
        by (exists (last_n 3 (r :: records)); apply last_n_map).
      destruct Hl as [l ->].
      destruct (key_sentences_loop_content l []) as [ks ->]. cbn [bind]. discriminate. }
    change (List.map content (r :: records))
      with (content r :: List.map content records) in *.
    unfold generate_auto_summary.
    destruct (summarizer_available self); [|exact Hok].
    destruct (summarizer self) as [model|]; [|exact Hok].
    destruct (ml_summary self model _) as [s|x] eqn:E; [|exact Hok].
    destruct (Hml _ _ _ E) as [-> | [t [n [c ->]]]]; discriminate.
  - intros records model Hne Ha Hm Hshort.
    destruct records as [|r records]; [congruence|].
    assert (Hmlr : ml_summary self model (List.map content (r :: records))
                   = Ok Insufficient).
    { unfold ml_summary. rewrite last_n_map, combine_texts_content. cbn [bind app].
      fold (combined_text (r :: records)).
      apply Nat.ltb_lt in Hshort. now rewrite Hshort. }
    change (List.map content (r :: records))
      with (content r :: List.map content records) in *.
    unfold generate_auto_summary. now rewrite Ha, Hm, Hmlr.
Qed.

(** ** Further properties: the entries of [generate_summary] *)

Lemma sorted_app_inv {A} (R : A -> A -> Prop) (l1 l2 : list A) :
  StronglySorted R (l1 ++ l2) ->
  forall x y, In x l1 -> In y l2 -> R x y.
Proof.
  induction l1 as [|a l1 IH]; intros H x y Hx Hy; [destruct Hx|].
  cbn in H. inversion H as [|? ? Hs Hall]; subst.
  destruct Hx as [<- | Hx]; [|now apply IH].
  rewrite List.Forall_forall in Hall. apply Hall, List.in_or_app. now right.
Qed.

Lemma recent_subjects_ok (l : list email_data) :
  (forall e, In e l -> subject e <> None) ->
  exists subjects, recent_subjects l = Ok subjects.
Proof.
  induction l as [|e l IH]; intros H; [now exists []|].
  cbn [recent_subjects].
  destruct (subject e) as [s|] eqn:Es; [|now destruct (H e (or_introl eq_refl))].
  cbn [bind getitem].
  destruct IH as [subs Hs]; [intros e' He'; apply H; now right|].
  destruct s; [now exists subs|]. rewrite Hs. cbn [bind]. eauto.
Qed.

Lemma in_last_n {A} (k : nat) (l : list A) (x : A) : In x (last_n k l) -> In x l.
Proof.
  unfold last_n. intros H. rewrite <- (List.firstn_skipn (length l - k) l).
  apply List.in_or_app. now right.
Qed.

(** X16. When the tally is listed in any order, the entry of
    [generate_summary] for a bucket keeps [min(10, number of terms)]
    pairs of the tally, sorted by descending count, and no term left out
    has a higher count than a term kept; the activity score is the number
    of e-mails plus the number of pairs kept, so at most 10 above the
    number of e-mails. *)
Theorem summary_top_keywords (lib : summary_lib) (data : bucket) (s : project_summary) :
  Permutation (keyword_items lib (keywords data)) (map_to_list (keywords data)) ->
  summary_entry lib data = Ok s ->
  length (mots_cles_principaux s) = Nat.min 10 (size (keywords data)) /\
  StronglySorted (desc snd) (mots_cles_principaux s) /\
  (forall k n, In (k, n) (mots_cles_principaux s) -> keywords data !! k = Some n) /\
  (forall k n k' n',
     In (k, n) (mots_cles_principaux s) ->
     keywords data !! k' = Some n' -> ~ In (k', n') (mots_cles_principaux s) ->
     n' <= n) /\
  nb_emails s = Z.of_nat (length (emails data)) /\
  score_activite s = nb_emails s + Z.of_nat (Nat.min 10 (size (keywords data))) /\
  score_activite s <= nb_emails s + 10.
Proof.
  intros Hperm. unfold summary_entry.
  destruct (recent_subjects _) as [subs|x]; cbn [bind]; [|discriminate].
  intros [= <-].
  cbn [mots_cles_principaux nb_emails score_activite].
  set (items := keyword_items lib (keywords data)) in *.
  set (sorted := sort_desc snd items).
  assert (Hlen : length sorted = size (keywords data)).
  { unfold sorted.
    rewrite (Permutation_length (sort_desc_perm snd items)),
      (Permutation_length Hperm). apply length_map_to_list. }
  assert (Hin : forall k n, In (k, n) sorted <-> keywords data !! k = Some n).
  { intros k n. rewrite <- elem_of_map_to_list, list_elem_of_In. split; intros H.
    - apply (Permutation_in _ Hperm).
      now apply (Permutation_in _ (sort_desc_perm snd items)).
    - apply (Permutation_in _ (Permutation_sym (sort_desc_perm snd items))).
      now apply (Permutation_in _ (Permutation_sym Hperm)). }
  assert (Hl : length (firstn 10 sorted) = Nat.min 10 (size (keywords data)))
    by (rewrite List.length_firstn; lia).
  split; [exact Hl|].
  split; [apply firstn_sorted, sort_desc_sorted|].
  split; [intros k n H; apply Hin; now apply in_firstn in H|].
  split; [|split; [reflexivity|split; [rewrite Hl; reflexivity | rewrite Hl; lia]]].
  intros k n k' n' Hk Hk' Hnot.
  apply Hin in Hk'. rewrite <- (List.firstn_skipn 10 sorted) in Hk'.
  apply List.in_app_or in Hk' as [Hk' | Hk']; [contradiction|].
  pose proof (sort_desc_sorted snd items) as Hs. fold sorted in Hs.
  rewrite <- (List.firstn_skipn 10 sorted) in Hs.
  exact (sorted_app_inv _ _ _ Hs _ _ Hk Hk').
Qed.

(** X17. [generate_summary] does not raise on what [search_project_emails]
    returns, whatever was fetched: every bucket has an entry, which
    reports recent activity and at least one e-mail. *)
Theorem summary_of_search (lib : summary_lib) (project_filters : list str)
    (fetched : list email_data) (p : str) (b : bucket) :
  search_project_emails project_filters fetched !! p = Some b ->
  exists s,
    summary_entry lib b = Ok s /\
    activite_recente s = true /\ 1 <= nb_emails s /\
    p_participants s = participants b /\
    nb_participants s = Z.of_nat (size (participants b)).
Proof.
  intros Hb.
  destruct (sound_search project_filters fetched p b Hb) as (_ & Hne & _ & Hall).
  destruct (recent_subjects_ok (last_n 3 (emails b))) as [subs Hs].
  { intros e He. apply in_last_n in He. destruct (Hall e He) as [_ [text [Ht _]]].
    unfold search_text, subject_body in Ht.
    destruct (subject e); [discriminate | discriminate Ht]. }
  unfold summary_entry. rewrite Hs. cbn [bind]. eexists. split; [reflexivity|].
  cbn [activite_recente nb_emails p_participants nb_participants].
  assert (0 < length (emails b))%nat by (destruct (emails b); [congruence | cbn; lia]).
  split; [apply Z.gtb_lt; lia|]. split; [lia|]. split; reflexivity.
Qed.

Lemma parse_step_app (lib : summary_lib) (acc : list Z) (d : option str) :
  parse_step lib acc d = acc ++ parse_step lib [] d.
Proof.
  unfold parse_step. destruct d as [[|c d]|]; rewrite ?app_nil_r; try reflexivity.
  destruct (parse_local lib _); [reflexivity | now rewrite app_nil_r].
Qed.

Lemma parsed_dates_flat (lib : summary_lib) (dates : list (option str)) (acc : list Z) :
  fold_left (parse_step lib) dates acc = acc ++ flat_map (parse_step lib []) dates.
Proof.
  revert acc. induction dates as [|d dates IH]; intros acc.
  - cbn. now rewrite app_nil_r.
  - cbn [fold_left flat_map]. rewrite IH, (parse_step_app lib acc d).
    now rewrite <- app_assoc.
Qed.

Lemma fold_min_spec (l : list Z) (a : Z) :
  In (fold_left Z.min l a) (a :: l) /\
  forall x, In x (a :: l) -> fold_left Z.min l a <= x.
Proof.
  revert a. induction l as [|b l IH]; intros a.
  - cbn. split; [now left | intros x [<- | []]; lia].
  - cbn [fold_left]. destruct (IH (Z.min a b)) as [Hin Hle]. split.
    + destruct Hin as [Hm | Hm]; [|right; now right].
      destruct (Z.min_spec a b) as [[_ E] | [_ E]];
        [left | right; left]; congruence.
    + intros x [<- | [<- | Hx]].
      * specialize (Hle (Z.min a b) (or_introl eq_refl)). lia.
      * specialize (Hle (Z.min a b) (or_introl eq_refl)). lia.
      * apply Hle. now right.
Qed.

Lemma fold_max_spec (l : list Z) (a : Z) :
  In (fold_left Z.max l a) (a :: l) /\
  forall x, In x (a :: l) -> x <= fold_left Z.max l a.
Proof.
  revert a. induction l as [|b l IH]; intros a.
  - cbn. split; [now left | intros x [<- | []]; lia].
  - cbn [fold_left]. destruct (IH (Z.max a b)) as [Hin Hle]. split.
    + destruct Hin as [Hm | Hm]; [|right; now right].
      destruct (Z.max_spec a b) as [[_ E] | [_ E]];
        [right; left | left]; congruence.
    + intros x [<- | [<- | Hx]].
      * specialize (Hle (Z.max a b) (or_introl eq_refl)). lia.
      * specialize (Hle (Z.max a b) (or_introl eq_refl)). lia.
      * apply Hle. now right.
Qed.

(** X18. The period of a bucket is empty when no stored date can be
    read (missing, empty and unparsable dates are passed over); otherwise
    it is the printed earliest date, followed by " - " and the printed
    latest date when the two print differently; and it does not depend
    on the order of the dates. *)
Theorem date_range_bounds (lib : summary_lib) (dates : list (option str)) :
  (parsed_dates lib dates = [] -> date_range lib dates = []) /\
  (parsed_dates lib dates <> [] ->
   exists lo hi,
     In lo (parsed_dates lib dates) /\ In hi (parsed_dates lib dates) /\
     (forall t, In t (parsed_dates lib dates) -> lo <= t <= hi) /\
     date_range lib dates
     = if bool_decide (format_date lib lo = format_date lib hi)
       then format_date lib lo
       else format_date lib lo ++ u " - " ++ format_date lib hi) /\
  (forall dates', Permutation dates dates' ->
     date_range lib dates' = date_range lib dates).
Proof.
  assert (Hform : forall ds,
    parsed_dates lib ds <> [] ->
    exists lo hi,
      In lo (parsed_dates lib ds) /\ In hi (parsed_dates lib ds) /\
      (forall t, In t (parsed_dates lib ds) -> lo <= t <= hi) /\
      date_range lib ds
      = if bool_decide (format_date lib lo = format_date lib hi)
        then format_date lib lo
        else format_date lib lo ++ u " - " ++ format_date lib hi).
  { intros ds Hne. unfold date_range. fold (parsed_dates lib ds).
    destruct (parsed_dates lib ds) as [|dt rest]; [congruence|].
    destruct (fold_min_spec rest dt) as [Hmin Hle].
    destruct (fold_max_spec rest dt) as [Hmax Hge].
    exists (fold_left Z.min rest dt), (fold_left Z.max rest dt).
    split; [exact Hmin|]. split; [exact Hmax|].
    split; [intros t Ht; split; [now apply Hle | now apply Hge] | reflexivity]. }
  split; [|split].
  - unfold date_range. fold (parsed_dates lib dates). now intros ->.
  - apply Hform.
  - intros dates' Hp.
    assert (Hpp : Permutation (parsed_dates lib dates) (parsed_dates lib dates')).
    { unfold parsed_dates. rewrite !parsed_dates_flat. cbn [app].
      now apply Permutation_flat_map. }
    destruct (parsed_dates lib dates) as [|dt rest] eqn:E.
    + apply Permutation_nil in Hpp. unfold date_range.
      fold (parsed_dates lib dates) (parsed_dates lib dates'). now rewrite E, Hpp.
    + assert (Hne : parsed_dates lib dates <> []) by (rewrite E; discriminate).
      assert (Hne' : parsed_dates lib dates' <> []).
      { intros H. rewrite H in Hpp. apply Permutation_sym, Permutation_nil in Hpp.
        discriminate. }
      rewrite <- E in Hpp.
      destruct (Hform dates Hne) as [lo [hi (Hlo & Hhi & Hb & ->)]].
      destruct (Hform dates' Hne') as [lo' [hi' (Hlo' & Hhi' & Hb' & ->)]].
      assert (lo = lo').
      { pose proof (Hb lo' (Permutation_in _ (Permutation_sym Hpp) Hlo')).
        pose proof (Hb' lo (Permutation_in _ Hpp Hlo)). lia. }
      assert (hi = hi').
      { pose proof (Hb hi' (Permutation_in _ (Permutation_sym Hpp) Hhi')).
        pose proof (Hb' hi (Permutation_in _ Hpp Hhi)). lia. }
      now subst.
Qed.

(** ** Further properties: [extract_entities_basic] *)

Lemma substring_trans (a b c : str) : substring a b -> substring b c -> substring a c.
Proof.
  clear lower findall_email mean_round2.
  intros [x [y ->]] [x' [y' ->]]. exists (x' ++ x), (y ++ y').
  now rewrite <- !app_assoc.
Qed.

Lemma technologies_fold (text : str) (L : list str) (acc : gset str) (t : str) :
  t ∈ fold_left
        (fun technologies tech =>
           if in_str tech text then technologies ∪ {[ upper_ascii tech ]}
           else technologies) L acc
  <-> t ∈ acc \/ exists tech, In tech L /\ in_str tech text = true /\ t = upper_ascii tech.
Proof.
  clear lower findall_email mean_round2.
  revert acc. induction L as [|k L IH]; intros acc.
  - cbn. split; [now left | intros [H | [tech [[] _]]]; exact H].
  - cbn [fold_left]. rewrite IH. destruct (in_str k text) eqn:E.
    + rewrite elem_of_union, elem_of_singleton. split.
      * intros [[H | ->] | [tech [Hin H]]].
        -- now left.
        -- right. exists k. split; [now left | now split].
        -- right. exists tech. split; [now right | exact H].
      * intros [H | [tech [[<- | Hin] [Ht ->]]]].
        -- left. now left.
        -- left. now right.
        -- right. exists tech. split; [exact Hin | now split].
    + split.
      * intros [H | [tech [Hin H]]]; [now left|].
        right. exists tech. split; [now right | exact H].
      * intros [H | [tech [[<- | Hin] [Ht ->]]]]; [now left | congruence |].
        right. exists tech. split; [exact Hin | now split].
Qed.

Lemma technologies_size (text : str) (L : list str) (acc : gset str) :
  (size (fold_left
           (fun technologies tech =>
              if in_str tech text then technologies ∪ {[ upper_ascii tech ]}
              else technologies) L acc)
   <= size acc + length L)%nat.
Proof.
  clear lower findall_email mean_round2.
  revert acc. induction L as [|k L IH]; intros acc; [cbn; lia|].
  cbn [fold_left length]. etransitivity; [apply IH|].
  destruct (in_str k text); [|lia].
  rewrite size_union_alt.
  assert (size ({[upper_ascii k]} ∖ acc) <= 1)%nat.
  { rewrite <- (size_singleton (upper_ascii k) (C := gset str)).
    apply subseteq_size. set_solver. }
  lia.
Qed.

(** X19. [extract_entities_basic] never reports a date; the technologies
    it reports are exactly the upper-cased terms of the technology
    lexicon that occur in the lower-cased text, at most 19 of them; and
    since matching is by substring, a text in which "javascript" occurs
    is reported to mention JAVA as well. *)
Theorem technologies_detected (re : entity_patterns) (text : str) :
  e_dates (extract_entities_basic re text) = ∅ /\
  (forall t,
     t ∈ e_technologies (extract_entities_basic re text)
     <-> exists tech,
           In tech tech_keywords /\ substring tech (lower text) /\
           t = upper_ascii tech) /\
  (size (e_technologies (extract_entities_basic re text)) <= 19)%nat /\
  (substring (u "javascript") (lower text) ->
   u "JAVA" ∈ e_technologies (extract_entities_basic re text) /\
   u "JAVASCRIPT" ∈ e_technologies (extract_entities_basic re text)).
Proof.
  clear findall_email mean_round2.
  assert (Hiff : forall t,
     t ∈ e_technologies (extract_entities_basic re text)
     <-> exists tech,
           In tech tech_keywords /\ substring tech (lower text) /\
           t = upper_ascii tech).
  { intros t. unfold extract_entities_basic. cbn [e_technologies].
    rewrite technologies_fold. split.
    - intros [H | [tech (Hin & Ht & ->)]]; [now apply not_elem_of_empty in H|].
      exists tech. split; [exact Hin|]. split; [now apply in_str_spec | reflexivity].
    - intros [tech (Hin & Ht & ->)]. right. exists tech. split; [exact Hin|].
      split; [now apply in_str_spec | reflexivity]. }
  split; [reflexivity|]. split; [exact Hiff|]. split.
  - unfold extract_entities_basic. cbn [e_technologies].
    pose proof (technologies_size (lower text) tech_keywords ∅) as H.
    rewrite size_empty in H. exact H.
  - intros Hjs. split; apply Hiff.
    + exists (u "java"). split; [unfold tech_keywords; do 4 right; now left|].
      split; [|reflexivity].
      apply (substring_trans _ (u "javascript")); [|exact Hjs].
      exists [], (u "script"). reflexivity.
    + exists (u "javascript"). split; [unfold tech_keywords; do 5 right; now left|].
      split; [exact Hjs | reflexivity].
Qed.
(** ** The fallback and the configuration, on what the functions return *)











Lemma search_empty_filters (fetched : list email_data) :
  search_project_emails [] fetched = ∅.
Proof.
  unfold search_project_emails. generalize (∅ : gmap str bucket) as pd.
  induction fetched as [|e fetched IH]; intros pd; [reflexivity|].
  cbn [fold_left]. rewrite <- (IH pd) at 2. f_equal.
  unfold process_email, check_project_relevance.
  destruct (search_text e); reflexivity.
Qed.

Lemma search_2_empty_filters (fetched : list email_data) :
  search_project_emails_2 [] fetched = ∅.
Proof.
  unfold search_project_emails_2. generalize (∅ : gmap str bucket) as pd.
  induction fetched as [|e fetched IH]; intros pd; [reflexivity|].
  cbn [fold_left]. rewrite <- (IH pd) at 2. f_equal.
  unfold process_email_2, check_project_relevance.
  destruct (search_text e); reflexivity.
Qed.

(** The two loops reach the same buckets, tallies apart. *)
Lemma process_emails_erase (fs : list str) (fetched : list email_data)
    (pd : gmap str bucket) :
  fold_left (process_email_2 fs) fetched (without_keywords <$> pd)
  = without_keywords <$> fold_left (process_email fs) fetched pd.
Proof.
  revert pd. induction fetched as [|e fetched IH]; intros pd; [reflexivity|].
  cbn [fold_left]. rewrite <- IH. f_equal.
  unfold process_email_2, process_email.
  destruct (check_project_relevance e fs) as [ms|x] eqn:Ec; [|reflexivity].
  unfold check_project_relevance in Ec.
  destruct (search_text e) as [text|] eqn:Et; cbn [bind] in Ec; [|discriminate].
  rewrite (record_in_projects_erase e text ms pd Et).
  destruct ms; reflexivity.
Qed.

Lemma search_empty_iff (fs : list str) (records : list EmailRecord) :
  search_project_emails fs (List.map content records) = ∅ <->
  forall p r, In p fs -> In r records -> matches p r = false.
Proof.
  rewrite map_empty. split.
  - intros H p r Hp Hr. pose proof (filled_search fs records p) as F.
    rewrite (H p) in F.
    destruct (matches p r) eqn:E; [|reflexivity]. exfalso.
    apply (proj2 (stored_nonempty fs p records)); [|exact F].
    split; [exact Hp|]. now exists r.
  - intros H p. pose proof (filled_search fs records p) as F.
    destruct (search_project_emails fs (List.map content records) !! p) as [b|];
      [|reflexivity].
    destruct F as [F _]. exfalso.
    apply stored_nonempty in F as [Hp [r [Hr Hm]]].
    rewrite (H p r Hp Hr) in Hm. discriminate.
Qed.

Lemma search_2_empty_iff (fs : list str) (fetched : list email_data) :
  search_project_emails_2 fs fetched = ∅ <-> search_project_emails fs fetched = ∅.
Proof.
  unfold search_project_emails_2, search_project_emails.
  pose proof (process_emails_erase fs fetched ∅) as H.
  rewrite fmap_empty in H. rewrite H. apply fmap_empty_iff.
Qed.

(** C7, as the code has it. The filter list is checked at the command
    line only: argparse refuses a missing [--projects] and one without a
    value, and [main] hands any other list to the search as it is. The
    analysers check nothing: for every filter list, empty or not,
    [check_project_relevance] returns without raising the filters found in
    the text of the record, hence the empty list for the empty filter
    list, and the loop of [search_project_emails] (in either file) then
    returns an empty mapping whatever was fetched, as it does exactly when
    no record matches any filter. [identify_critical_emails] has the
    e-mails as its only argument and keeps [min(5, n)] entries, [n] being
    the number of records that score 4 or more, and at most 5 on any
    dicts: no top-K comes from the caller. *)
Theorem empty_filters_accepted (r : EmailRecord) (project_filters : list str)
    (fetched emails : list email_data) (records : list EmailRecord) :
  (forall given, parse_projects given = UsageError <-> given = None \/ given = Some []) /\
  (forall given pd, main given fetched = Args pd ->
     exists p ps, given = Some (p :: ps) /\
                  pd = search_project_emails_2 (p :: ps) fetched) /\
  check_project_relevance (content r) project_filters
  = Ok (List.filter (fun p => matches p r) project_filters) /\
  check_project_relevance (content r) [] = Ok [] /\
  search_project_emails [] fetched = ∅ /\
  search_project_emails_2 [] fetched = ∅ /\
  (search_project_emails project_filters (List.map content records) = ∅ <->
   forall p r', In p project_filters -> In r' records -> matches p r' = false) /\
  (search_project_emails_2 project_filters (List.map content records) = ∅ <->
   forall p r', In p project_filters -> In r' records -> matches p r' = false) /\
  length (identify_critical_emails (List.map content records))
  = Nat.min 5 (length (List.filter critical records)) /\
  (length (identify_critical_emails emails) <= 5)%nat.
Proof.
  split; [|split; [|split; [|split; [|split; [|split; [|split; [|split; [|split]]]]]]]].
  - intros given. destruct given as [[|p ps]|]; cbn [parse_projects].
    + split; [intros _; now right | reflexivity].
    + split; [discriminate | intros [H | H]; discriminate H].
    + split; [intros _; now left | reflexivity].
  - intros [[|p ps]|] pd; unfold main; cbn [parse_projects]; try discriminate.
    intros H. exists p, ps. split; [reflexivity|].
    apply (f_equal (fun x => match x with Args y => y | UsageError => pd end)) in H.
    now symmetry.
  - unfold check_project_relevance. now rewrite search_text_content.
  - reflexivity.
  - apply search_empty_filters.
  - apply search_2_empty_filters.
  - apply search_empty_iff.
  - rewrite search_2_empty_iff. apply search_empty_iff.
  - unfold identify_critical_emails.
    rewrite collect_critical_content, List.length_firstn.
    now rewrite (Permutation_length (sort_desc_perm criticality_score _)),
      List.length_map.
  - unfold identify_critical_emails. apply List.firstn_le_length.
Qed.


End Analysers.

(** * The analysers on sample inputs *)

(** Scenario A: the tallies of the bucket "Atlas". *)
Example scenario_A_tallies :
  let pd := search_project_emails lower_latin1 no_addresses [u "Atlas"] [content atlas_mail] in
  keyword_count pd (u "Atlas") (u "deadline") = 1%Z /\
  keyword_count pd (u "Atlas") (u "urgent") = 2%Z /\
  keyword_count pd (u "Atlas") (u "budget") = 1%Z.
Proof. vm_compute. repeat split. Qed.

(** Scenario E: one record without risk terms and no trend. *)
Example scenario_E_risk :
  let a := calculate_risk_score lower_latin1 [content (mail "hello" "world")] no_summary in
  score_risque a = 15%Z /\ niveau_risque a = FAIBLE /\
  facteurs_risque a = Some [ActiviteFaible].
Proof. vm_compute. repeat split. Qed.

(** Witness of C9: a dict without its subject sends
    [calculate_risk_score] to the [except] branch. *)
Lemma risk_indeterminate_witness :
  calculate_risk_score lower_latin1 [no_subject] no_summary
  = {| score_risque := 0; niveau_risque := INDETERMINE;
       facteurs_risque := None; recommandation := None |}.
Proof.
  apply (proj1 (risk_indeterminate lower_latin1 [no_subject] no_summary)
           (KeyError (u "subject"))).
  reflexivity.
Defined.

(** Witness of C10: Scenario A contains "urgent". *)
Lemma urgent_terms_counted_twice_witness :
  in_str (u "urgent") (record_text lower_latin1 atlas_mail) = true /\
  (8 <= fst (criticality (record_text lower_latin1 atlas_mail)))%Z /\
  critical_entry lower_latin1 (content atlas_mail)
  = Ok (Some (entry_of lower_latin1 atlas_mail)).
Proof.
  assert (H : in_str (u "urgent") (record_text lower_latin1 atlas_mail) = true)
    by (vm_compute; reflexivity).
  destruct (urgent_terms_counted_twice lower_latin1 atlas_mail (u "urgent")
              (or_introl eq_refl) H) as (_ & _ & H8 & _ & _ & He & _).
  exact (conj H (conj H8 He)).
Defined.

(** Witness of C4: five positive terms give a confidence above 1.0. *)
Lemma basic_scorer_confidence_witness :
  lower_latin1 five_praises = five_praises /\
  label (analyze_sentiment_basic lower_latin1 five_praises) = u "POSITIVE" /\
  PrimFloat.ltb 1 (score (analyze_sentiment_basic lower_latin1 five_praises)) = true.
Proof.
  assert (Hl : lower_latin1 five_praises = five_praises) by (vm_compute; reflexivity).
  pose proof (basic_scorer_confidence lower_latin1 five_praises Hl) as H.
  cbv zeta in H. destruct H as (Hpos & _ & _ & Hcap & _).
  assert (Hlt : hits negative_keywords (lower_latin1 five_praises)
                < hits positive_keywords (lower_latin1 five_praises))
    by (apply Nat.ltb_lt; vm_compute; reflexivity).
  assert (H5 : 5 <= hits positive_keywords (lower_latin1 five_praises))
    by (apply Nat.leb_le; vm_compute; reflexivity).
  exact (conj Hl (conj (proj1 (Hpos Hlt)) (Hcap Hlt H5))).
Defined.


(** Counterexample to C2 as stated: six records score 8, and the sixth
    is not in the returned list. *)
Lemma six_urgent_not_all_listed : ~ appears_iff_critical lower_latin1 six_urgent.
Proof.
  intros H. specialize (H (mail "urgent 6" "")).
  assert (Hin : In (mail "urgent 6" "") six_urgent) by (do 5 right; left; reflexivity).
  destruct (H Hin) as [_ Hback]. clear H Hin.
  assert (H4 : (4 <= criticality_points (record_text lower_latin1 (mail "urgent 6" "")))%Z)
    by (apply Z.leb_le; vm_compute; reflexivity).
  specialize (Hback H4). vm_compute in Hback.
  repeat (destruct Hback as [Hback | Hback]; [discriminate Hback|]).
  exact Hback.
Qed.

(** Counterexample to C3 as stated: with no record, or with records
    that are all blank, the summary has neither tallies nor a trend. *)
Lemma no_trend_without_scored_mail :
  ~ has_trend lower_latin1 no_mean no_model [] /\
  ~ has_trend lower_latin1 no_mean no_model [mail "" "  "].
Proof.
  split; intros [st [H _]]; vm_compute in H; discriminate H.
Qed.

(** Counterexample to C7 as stated: handed an empty filter list, the
    analysers do not raise, and the loop of either file yields an empty
    mapping. *)
Lemma empty_filters_not_refused :
  ~ fails_fast (check_project_relevance lower_latin1 (content atlas_mail) []) /\
  search_project_emails lower_latin1 no_addresses [] [content atlas_mail] = ∅ /\
  search_project_emails_2 lower_latin1 no_addresses [] [content atlas_mail] = ∅.
Proof.
  split; [intros [e He]; discriminate He | split; reflexivity].
Qed.


(** Witness of C5: of the filters "Atlas" and "Zeus", Scenario A matches
    the first only. *)
Lemma check_project_relevance_spec_witness :
  exists matched,
    check_project_relevance lower_latin1 (content atlas_mail) [u "Atlas"; u "Zeus"]
    = Ok matched /\
    In (u "Atlas") matched /\ ~ In (u "Zeus") matched.
Proof.
  destruct (check_project_relevance_spec lower_latin1 no_addresses atlas_mail
              [u "Atlas"; u "Zeus"]) as [matched (H1 & H2 & _)].
  exists matched. split; [exact H1|]. split.
  - apply H2. split; [left; reflexivity|].
    apply in_str_spec. vm_compute. reflexivity.
  - intros Hz. apply H2 in Hz as [_ Hs]. apply in_str_spec in Hs.
    vm_compute in Hs. discriminate Hs.
Defined.

(** Witness of C6: the bucket "Atlas" of Scenario A. *)
Lemma keyword_tally_sum_witness :
  exists b,
    search_project_emails lower_latin1 no_addresses [u "Atlas"] [content atlas_mail]
      !! u "Atlas" = Some b /\
    default 0%Z (keywords b !! u "urgent")
    = zsum (List.map (term_count lower_latin1 (u "urgent")) (emails b)).
Proof.
  destruct (search_project_emails lower_latin1 no_addresses [u "Atlas"]
              [content atlas_mail] !! u "Atlas") as [b|] eqn:E.
  - exists b. split; [reflexivity|].
    apply (proj1 (keyword_tally_sum lower_latin1 no_addresses [u "Atlas"] [atlas_mail])
             (u "Atlas") b (u "urgent") E).
    unfold project_keywords. do 15 right. left. reflexivity.
  - vm_compute in E. discriminate E.
Defined.

(** Witness of C2: a single critical record is listed. *)
Lemma critical_emails_ranked_witness :
  In (entry_of lower_latin1 atlas_mail)
     (identify_critical_emails lower_latin1 [content atlas_mail]) /\
  (criticality_score (entry_of lower_latin1 atlas_mail) = 9)%Z.
Proof.
  pose proof (critical_emails_ranked lower_latin1 [atlas_mail]) as H.
  cbv zeta in H. destruct H as (Hscore & _ & _ & Hiff & _).
  assert (Hlen : length (List.filter (critical lower_latin1) [atlas_mail]) <= 5)
    by (apply Nat.leb_le; vm_compute; reflexivity).
  assert (H4 : (4 <= criticality_points (record_text lower_latin1 atlas_mail))%Z)
    by (apply Z.leb_le; vm_compute; reflexivity).
  assert (H9 : criticality_points (record_text lower_latin1 atlas_mail) = 9%Z)
    by (vm_compute; reflexivity).
  exact (conj (proj2 (Hiff Hlen atlas_mail (or_introl eq_refl)) H4)
              (eq_trans (Hscore atlas_mail) H9)).
Defined.

(** Witness of C3: Scenario A alone, scored by the basic scorer, gives a
    negative trend. *)
Lemma sentiment_summary_tallies_witness :
  exists st,
    stats (analyze_sentiment lower_latin1 no_mean no_model [content atlas_mail]) = Some st /\
    sentiment_negatif st = 1%Z /\ tendance st = Negative.
Proof.
  pose proof (sentiment_summary_tallies lower_latin1 no_mean no_model [atlas_mail]) as H.
  cbv zeta in H. destruct H as (_ & _ & _ & Hsome & Hbasic).
  destruct Hsome as [st (Hst & Hpos & Hneg & _ & _ & Htrend & _ & Hexact)].
  { vm_compute. discriminate. }
  exists st. split; [exact Hst|].
  destruct (Hexact (Hbasic (or_introl eq_refl))) as (Hp & Hn & _).
  assert (Hn1 : sentiment_negatif st = 1%Z) by (rewrite Hn; vm_compute; reflexivity).
  assert (Hp0 : sentiment_positif st = 0%Z) by (rewrite Hp; vm_compute; reflexivity).
  split; [exact Hn1|]. apply Htrend. rewrite Hn1, Hp0. reflexivity.
Defined.

(** * The further properties on sample inputs *)

(** Witness of X3: the bucket "Atlas" of Scenario A. *)
Lemma bucket_soundness_witness :
  exists b,
    search_project_emails lower_latin1 no_addresses [u "Atlas"] [content atlas_mail]
      !! u "Atlas" = Some b /\
    emails b <> [] /\ length (dates b) <= length (emails b).
Proof.
  destruct (search_project_emails lower_latin1 no_addresses [u "Atlas"]
              [content atlas_mail] !! u "Atlas") as [b|] eqn:E.
  - exists b. split; [reflexivity|].
    destruct (bucket_soundness lower_latin1 no_addresses [u "Atlas"]
                [content atlas_mail] (u "Atlas") b E) as (_ & H1 & H2 & _).
    exact (conj H1 H2).
  - vm_compute in E. discriminate E.
Defined.

(** Witness of X4: a dict without a date that matches two filters. *)
Lemma missing_date_partial_update_witness :
  let pd := process_email lower_latin1 no_addresses [u "Atlas"; u "urgent"] ∅ no_date in
  pd !! u "urgent" = None /\
  exists b, pd !! u "Atlas" = Some b /\ emails b = [no_date] /\ dates b = [].
Proof.
  assert (Hc : check_project_relevance lower_latin1 no_date [u "Atlas"; u "urgent"]
               = Ok [u "Atlas"; u "urgent"]) by (vm_compute; reflexivity).
  cbv zeta.
  rewrite (missing_date_partial_update lower_latin1 no_addresses
             [u "Atlas"; u "urgent"] ∅ no_date (u "Atlas") [u "urgent"] eq_refl Hc).
  split; [vm_compute; reflexivity|].
  eexists. split; [apply lookup_insert_eq|]. split; reflexivity.
Defined.

(** Witness of X9: a pipeline that always fails still gives the method
    ML in the summary. *)
Lemma sentiment_summary_details_witness :
  exists st,
    stats (analyze_sentiment lower_latin1 no_mean failing_model [content atlas_mail])
    = Some st /\
    methode st = SummaryML /\ length (details st) = 1.
Proof.
  destruct (stats (analyze_sentiment lower_latin1 no_mean failing_model
                     [content atlas_mail])) as [st|] eqn:E.
  - exists st. split; [reflexivity|].
    destruct (sentiment_summary_details lower_latin1 no_mean failing_model
                [atlas_mail] st E) as (_ & _ & Hl & Hm & _).
    split; [now apply Hm|]. rewrite Hl. vm_compute. reflexivity.
  - vm_compute in E. discriminate E.
Defined.

(** Witness of X11: the entry of Scenario A. *)
Lemma critical_entry_bounds_witness :
  (4 <= criticality_score (entry_of lower_latin1 atlas_mail) <= 59)%Z /\
  length (preview (entry_of lower_latin1 atlas_mail)) <= 153.
Proof.
  assert (Hin : In (entry_of lower_latin1 atlas_mail)
                   (identify_critical_emails lower_latin1 [content atlas_mail]))
    by (vm_compute; left; reflexivity).
  destruct (critical_entry_bounds lower_latin1 [content atlas_mail]
              (entry_of lower_latin1 atlas_mail) Hin) as (H1 & _ & H2).
  exact (conj H1 H2).
Defined.

(** Witness of X16: a bucket with two terms in its tally. *)
Lemma summary_top_keywords_witness :
  exists s,
    summary_entry sample_lib sample_bucket = Ok s /\
    length (mots_cles_principaux s) = 2 /\ score_activite s = 3%Z.
Proof.
  destruct (summary_entry sample_lib sample_bucket) as [s|x] eqn:E.
  - exists s. split; [reflexivity|].
    destruct (summary_top_keywords sample_lib sample_bucket s
                (Permutation_refl _) E) as (Hl & _ & _ & _ & Hn & Hs & _).
    split; [rewrite Hl; vm_compute; reflexivity|].
    rewrite Hs, Hn. vm_compute. reflexivity.
  - vm_compute in E. discriminate E.
Defined.

(** Witness of X17: the bucket "Atlas" of Scenario A has a summary. *)
Lemma summary_of_search_witness :
  exists b s,
    search_project_emails lower_latin1 no_addresses [u "Atlas"] [content atlas_mail]
      !! u "Atlas" = Some b /\
    summary_entry sample_lib b = Ok s /\ activite_recente s = true.
Proof.
  destruct (search_project_emails lower_latin1 no_addresses [u "Atlas"]
              [content atlas_mail] !! u "Atlas") as [b|] eqn:E.
  - destruct (summary_of_search lower_latin1 no_addresses sample_lib [u "Atlas"]
                [content atlas_mail] (u "Atlas") b E) as [s (Hs & Ha & _)].
    exists b, s. split; [reflexivity|]. exact (conj Hs Ha).
  - vm_compute in E. discriminate E.
Defined.
